(** * StatisticsCalculatorTool (ctapipe/tools/stats_calculation.py)

    A shallow embedding of the command-line driver that computes chunked
    pixel statistics of DL1a image data, together with the properties its
    specification states about it.

    The driver is embedded as written: [setup], [start] and [finish] are
    monadic programs over an explicit world (the output file and a trace of
    the calls made to the external collaborators).  The collaborators that
    the driver only calls ([first_pass], [second_pass], the subarray and
    table loaders) are section variables. *)

From Stdlib Require Import ZArith NArith List Ascii String Bool Lia.
From Stdlib Require Import Decimal DecimalString DecimalPos DecimalN.
From Stdlib Require Import Sorted Permutation.
From stdpp Require Import gmap strings list.

Local Open Scope string_scope.
Local Open Scope Z_scope.

(** ** Exceptions and results *)

(** The exceptions the driver and its collaborators can raise. *)
Inductive Exn : Type :=
| ToolConfigurationError (msg : string)
| TraitError (msg : string)
| OSError (msg : string)
| ValueError (msg : string)
| OtherError (msg : string).

Inductive result (A : Type) : Type :=
| Ok (a : A)
| Raise (e : Exn).
Arguments Ok {A} a.
Arguments Raise {A} e.

Definition is_ok {A} (r : result A) : bool :=
match r with Ok _ => true | Raise _ => false end.

(** ** Strings: case folding and decimal formatting *)

Module Str.

(** A Python [str] is held as its UTF-8 bytes. *)

(** [str.lower()] on an ASCII character: the letters A-Z move to a-z. *)
Definition lower_char (c : ascii) : ascii :=
  let n := nat_of_ascii c in
  if ((65 <=? n)%nat && (n <=? 90)%nat)%bool then ascii_of_nat (n + 32) else c.

(** U+212A KELVIN SIGN and U+0130 LATIN CAPITAL LETTER I WITH DOT ABOVE,
    and what [str.lower()] makes of them: [k], and [i] followed by
    U+0307 COMBINING DOT ABOVE. *)
Definition kelvin_sign : string :=
  String "226" (String "132" (String "170" EmptyString)).

Definition capital_i_dot : string :=
  String "196" (String "176" EmptyString).

Definition small_i_dot : string :=
  String "i" (String "204" (String "135" EmptyString)).

(** [str.lower()], as far as a comparison with an ASCII word can tell.
    The ASCII letters are folded; the two code points outside ASCII whose
    lower case holds an ASCII character, U+212A and U+0130, are given
    their lower case.  The lower case of any other code point lies
    outside ASCII, as the code point itself does, and is not computed:
    the code point is kept, so that a string holding one differs from
    every ASCII word before and after, as it does in Python. *)
Fixpoint lower (s : string) : string :=
  match s with
  | EmptyString => EmptyString
  | String c s' =>
      match c, s' with
      | "226"%char, String "132" (String "170" rest) =>
          String "k" (lower rest)
      | "196"%char, String "176" rest =>
          String "i" (String "204" (String "135" (lower rest)))
      | _, _ => String (lower_char c) (lower s')
      end
  end.

Fixpoint zeros (k : nat) : string :=
  match k with
  | O => EmptyString
  | S k' => String "0" (zeros k')
  end.

(** The decimal digits of a natural number, without sign or padding. *)
Definition digits (n : N) : string :=
  NilEmpty.string_of_uint (N.to_uint n).

(** Left padding with zeros up to [width] characters. *)
Definition zfill (width : nat) (s : string) : string :=
  zeros (width - String.length s) ++ s.

(** [format(z, "d")], as used by the [%d] of the logger. *)
Definition format_d (z : Z) : string :=
  match z with
  | Zneg p => String "-" (digits (Npos p))
  | _ => digits (Z.to_N z)
  end.

(** [format(z, "03d")]: zero padding to width 3, the sign counted in the
    width and written before the zeros. *)
Definition format_03d (z : Z) : string :=
  match z with
  | Zneg p => String "-" (zfill 2 (digits (Npos p)))
  | _ => zfill 3 (digits (Z.to_N z))
  end.

(** Is every character a decimal digit? *)
Definition is_digit (c : ascii) : bool :=
  let n := nat_of_ascii c in ((48 <=? n)%nat && (n <=? 57)%nat)%bool.

Fixpoint is_digits (s : string) : bool :=
  match s with
  | EmptyString => true
  | String c s' => (is_digit c && is_digits s')%bool
  end.

(** Reading a padded number back; used to show that the formatting
    loses nothing. *)
Definition parse_N (s : string) : option N :=
  option_map N.of_uint (NilEmpty.uint_of_string s).

Definition parse_Z (s : string) : option Z :=
  match s with
  | EmptyString => None
  | String c s' =>
      if Ascii.eqb c "-" then option_map (fun n => - Z.of_N n) (parse_N s')
      else option_map Z.of_N (parse_N s)
  end.

End Str.

(** ** Configuration traits *)

(** A value handed to a trait by the command line or a configuration file. *)
Inductive PyValue : Type :=
| PyNone
| PyStr (s : string)
| PyInt (z : Z).

Module Traits.

(** [CaselessStrEnum.validate]: the first member of [values] whose lower
    case equals the lower case of [value]; the member is returned, not
    the value that was given. *)
Fixpoint caseless_find (values : list string) (value : string) : option string :=
  match values with
  | [] => None
  | v :: vs =>
      if String.eqb (Str.lower v) (Str.lower value) then Some v
      else caseless_find vs value
  end.

Definition CaselessStrEnum (values : list string) (value : PyValue) : result string :=
  match value with
  | PyStr s =>
      match caseless_find values s with
      | Some v => Ok v
      | None => Raise (TraitError "invalid enum value")
      end
  | _ => Raise (TraitError "invalid enum value")
  end.

End Traits.

(** The members of the [dl1a_column_name] trait. *)
Definition dl1a_column_values : list string := ["image"; "peak_time"; "variance"].

(** What the user configures; an absent column name takes the default. *)
Record RawConfig : Type := {
  raw_input_url : option string;
  raw_allowed_tels : option (list Z);
  raw_dl1a_column_name : option PyValue;
  raw_output_column_name : string;
  raw_output_path : string;
  raw_overwrite : bool;
  raw_chunk_shift : option Z
}.

(** The [telescopes] argument of the table loader: the tuple of the
    subarray, or the set of the [allowed_tels] trait. *)
Inductive TelIds : Type :=
| IdsTuple (ids : list Z)
| IdsSet (ids : gset Z).

(** The traits of [StatisticsCalculatorTool] once validated.  Paths are
    compared as pathlib does, component by component, which on the
    normalised text of a path is equality of strings. *)
Record Config : Type := {
  input_url : option string;
  allowed_tels : option (gset Z);
  dl1a_column_name : string;
  output_column_name : string;
  output_path : string;
  overwrite : bool;
  chunk_shift_cfg : option Z
}.

Definition set_dl1a_column_name (raw : option PyValue) : result string :=
  match raw with
  | None => Ok "image"
  | Some v => Traits.CaselessStrEnum dl1a_column_values v
  end.

(** ** The instrument and the statistics calculator, as far as the driver
    looks into them *)

Record Subarray : Type := { tel_ids : list Z }.

Record Calculator : Type := { chunk_shift : option Z }.

(** [self.input_url == self.output_path]; [None] equals no path. *)
Definition same_path (input : option string) (output : string) : bool :=
  match input with
  | Some p => String.eqb p output
  | None => false
  end.

Section Driver.

(** A DL1 event table and the statistics columns of one chunk are opaque
    to the driver. *)
Variable DL1Table : Type.
Variable Payload : Type.

(** One row of the aggregated statistics table: one chunk. *)
Record StatsRow : Type := {
  time_start : Z;
  time_end : Z;
  is_valid : bool;
  payload : Payload
}.

Definition StatsTable : Type := list StatsRow.

(** [aggregated_stats["is_valid"].data] *)
Definition is_valid_data (t : StatsTable) : list bool := map is_valid t.

(** [np.any(~mask)] *)
Definition np_any_not (mask : list bool) : bool := existsb negb mask.

(** [astropy.table.vstack]: the rows of the tables, one table after the
    other. *)
Definition vstack (tables : list StatsTable) : StatsTable := concat tables.

(** [Table.sort(["time_start"])]: a stable sort on the [time_start]
    column. *)
Fixpoint insert_row (r : StatsRow) (t : StatsTable) : StatsTable :=
  match t with
  | [] => [r]
  | r' :: t' =>
      if time_start r <=? time_start r' then r :: r' :: t'
      else r' :: insert_row r t'
  end.

Fixpoint sort_by_time_start (t : StatsTable) : StatsTable :=
  match t with
  | [] => []
  | r :: t' => insert_row r (sort_by_time_start t')
  end.

(** *** The world the driver acts on *)

(** The calls the driver makes, in the order it makes them. *)
Inductive Event : Type :=
| EvFromHdf (url : option string)
| EvNewCalculator (subarray : Subarray)
| EvTableLoader (url : option string)
| EvReadEvents (url : option string) (telescopes : TelIds)
| EvFirstPass (table : DL1Table) (tel_id : Z) (col_name : string)
| EvSecondPass (table : DL1Table) (valid_chunks : list bool)
               (tel_id : Z) (col_name : string)
| EvLogInfo (msg : string)
| EvWriteTable (table : StatsTable) (h5file path : string) (overwrite : bool).

(** The tables stored in HDF5 files, by file name and node path, and the
    trace of calls. *)
Record World : Type := {
  h5 : gmap (string * string) StatsTable;
  trace : list Event
}.

(** State and exceptions: the world survives a raised exception. *)
Definition M (A : Type) : Type := World -> World * result A.

#[local] Instance M_ret : MRet M := fun A a w => (w, Ok a).

#[local] Instance M_bind : MBind M := fun A B f m w =>
  match m w with
  | (w', Ok a) => f a w'
  | (w', Raise e) => (w', Raise e)
  end.

Definition raise {A} (e : Exn) : M A := fun w => (w, Raise e).

Definition emit (e : Event) : M unit := fun w =>
  ({| h5 := h5 w; trace := trace w ++ [e] |}, Ok tt).

Definition lift {A} (r : result A) : M A := fun w => (w, r).

(** A call to a collaborator: it is recorded, then returns or raises. *)
Definition call {A} (e : Event) (r : result A) : M A :=
  emit e;; lift r.

(** Modelled from the spec: [ctapipe.io.write_table] is not among the
    sources.  The specification describes it as a table writer with
    overwrite-or-fail semantics: writing to a node that exists replaces
    it when [overwrite] is set and fails otherwise. *)
Definition store (table : StatsTable) (h5file path : string)
    (ow : bool) : M unit := fun w =>
  match h5 w !! (h5file, path) with
  | Some _ =>
      if ow then
        ({| h5 := <[(h5file, path) := table]> (h5 w); trace := trace w |}, Ok tt)
      else
        (w, Raise (OSError "Table already exists in output file, use append or overwrite"))
  | None =>
      ({| h5 := <[(h5file, path) := table]> (h5 w); trace := trace w |}, Ok tt)
  end.

(** The call [write_table(table, h5file, path, overwrite=...)]: recorded,
    then carried out by [store]. *)
Definition write_table (table : StatsTable) (h5file path : string)
    (ow : bool) : M unit :=
  emit (EvWriteTable table h5file path ow);;
  store table h5file path ow.

(** *** Collaborators that the driver calls *)

Variable from_hdf : option string -> result Subarray.

(** The constructor of the calculator, given the tool as parent (its
    configuration) and the subarray; the driver later reads the
    [chunk_shift] of the object it returned. *)
Variable PixelStatisticsCalculator : Config -> Subarray -> result Calculator.

(** The constructor of the table loader on a file, and the method of the
    loader opened on that file.  The other arguments of the method are
    constants of the driver. *)
Variable TableLoader : option string -> result unit.
Variable read_telescope_events_by_id :
  option string -> TelIds -> result (list (Z * DL1Table)).
Variable first_pass :
  Calculator -> DL1Table -> Z -> string -> result StatsTable.
Variable second_pass :
  Calculator -> DL1Table -> list bool -> Z -> string -> result StatsTable.

(** The attributes [setup] stores on the tool. *)
Record Tool : Type := {
  stats_calculator : Calculator;
  dl1_tables : list (Z * DL1Table)
}.

(** *** [StatisticsCalculatorTool.setup] *)

Definition setup (cfg : Config) : M Tool :=
  if same_path (input_url cfg) (output_path cfg) then
    raise (ToolConfigurationError
             "Input and output files are same. Fix your configuration / cli arguments.")
  else
    subarray ← call (EvFromHdf (input_url cfg)) (from_hdf (input_url cfg));
    calculator ← call (EvNewCalculator subarray)
                      (PixelStatisticsCalculator cfg subarray);
    _ ← call (EvTableLoader (input_url cfg)) (TableLoader (input_url cfg));
    let ids := match allowed_tels cfg with
               | None => IdsTuple (tel_ids subarray)
               | Some tels => IdsSet tels
               end in
    tables ← call (EvReadEvents (input_url cfg) ids)
                  (read_telescope_events_by_id (input_url cfg) ids);
    mret {| stats_calculator := calculator; dl1_tables := tables |}.

(** *** [StatisticsCalculatorTool.start] *)

(** The node a telescope's table is written to. *)
Definition node_path (cfg : Config) (tel_id : Z) : string :=
  "/dl1/monitoring/telescope/" ++ output_column_name cfg
    ++ "/tel_" ++ Str.format_03d tel_id.

Definition skip_message (tel_id : Z) : string :=
  "No faulty chunks found for telescope 'tel_id=" ++ Str.format_d tel_id
    ++ "'. Skipping second pass.".

(** The statistics of one telescope: the body of the loop up to the
    write. *)
Definition aggregate (cfg : Config) (tool : Tool) (tel_id : Z)
    (dl1_table : DL1Table) : M StatsTable :=
  let calc := stats_calculator tool in
  let col := dl1a_column_name cfg in
  aggregated_stats ← call (EvFirstPass dl1_table tel_id col)
                          (first_pass calc dl1_table tel_id col);
  match chunk_shift calc with
  | Some _ =>
      if np_any_not (is_valid_data aggregated_stats) then
        let valid_chunks := is_valid_data aggregated_stats in
        aggregated_stats_secondpass ←
          call (EvSecondPass dl1_table valid_chunks tel_id col)
               (second_pass calc dl1_table valid_chunks tel_id col);
        mret (sort_by_time_start
                (vstack [aggregated_stats; aggregated_stats_secondpass]))
      else
        emit (EvLogInfo (skip_message tel_id));;
        mret aggregated_stats
  | None => mret aggregated_stats
  end.

(** One iteration of the loop. *)
Definition start_one (cfg : Config) (tool : Tool) (tel_id : Z)
    (dl1_table : DL1Table) : M unit :=
  aggregated_stats ← aggregate cfg tool tel_id dl1_table;
  write_table aggregated_stats (output_path cfg) (node_path cfg tel_id)
              (overwrite cfg).

(** The loop over [self.dl1_tables.items()], in the order of the
    dictionary. *)
Fixpoint start_loop (cfg : Config) (tool : Tool)
    (items : list (Z * DL1Table)) : M unit :=
  match items with
  | [] => mret tt
  | (tel_id, dl1_table) :: rest =>
      start_one cfg tool tel_id dl1_table;;
      start_loop cfg tool rest
  end.

Definition start (cfg : Config) (tool : Tool) : M unit :=
  start_loop cfg tool (dl1_tables tool).

(** *** [StatisticsCalculatorTool.finish] *)

Definition finish (cfg : Config) : M unit :=
  emit (EvLogInfo ("DL1 monitoring data was stored in '" ++ output_path cfg
                     ++ "' under '/dl1/monitoring/telescope/"
                     ++ output_column_name cfg ++ "'"));;
  emit (EvLogInfo "Tool is shutting down").

(** *** Running the tool *)

(** Modelled from the spec: [Tool.run] and the validation of the traits
    (ctapipe.core) are not among the sources.  The specification says
    that an unsupported column name is a configuration error detected
    before processing starts, and that such an error aborts the whole
    run; so the traits are validated first, then [setup], [start] and
    [finish] run in this order and the first exception ends the run. *)
Definition initialize (raw : RawConfig) : M Config :=
  fun w =>
    match set_dl1a_column_name (raw_dl1a_column_name raw) with
    | Ok col =>
        (w, Ok {| input_url := raw_input_url raw;
                  allowed_tels :=
                    option_map (fun tels => list_to_set tels : gset Z)
                               (raw_allowed_tels raw);
                  dl1a_column_name := col;
                  output_column_name := raw_output_column_name raw;
                  output_path := raw_output_path raw;
                  overwrite := raw_overwrite raw;
                  chunk_shift_cfg := raw_chunk_shift raw |})
    | Raise e => (w, Raise e)
    end.

Definition run_configured (cfg : Config) : M unit :=
  tool ← setup cfg;
  start cfg tool;;
  finish cfg.

Definition run (raw : RawConfig) : M unit :=
  cfg ← initialize raw;
  run_configured cfg.

(** *** Observing a run *)

(** The calls a computation adds to the trace when started in [w]. *)
Definition events_during {A} (m : M A) (w : World) : list Event :=
  drop (length (trace w)) (trace (fst (m w))).

Definition first_pass_calls (es : list Event)
  : list (DL1Table * Z * string) :=
  flat_map (fun e => match e with
                     | EvFirstPass t i c => [(t, i, c)]
                     | _ => []
                     end) es.

Definition second_pass_calls (es : list Event)
  : list (DL1Table * list bool * Z * string) :=
  flat_map (fun e => match e with
                     | EvSecondPass t v i c => [(t, v, i, c)]
                     | _ => []
                     end) es.

(** The tables handed to the writer, with the node they go to. *)
Definition written_tables (es : list Event)
  : list (StatsTable * string * string * bool) :=
  flat_map (fun e => match e with
                     | EvWriteTable t f p o => [(t, f, p, o)]
                     | _ => []
                     end) es.

(** The column names handed to the two passes. *)
Definition col_names_passed (es : list Event) : list string :=
  flat_map (fun e => match e with
                     | EvFirstPass _ _ c => [c]
                     | EvSecondPass _ _ _ c => [c]
                     | _ => []
                     end) es.

(** The world after some more calls were recorded. *)
Definition log_events (w : World) (es : list Event) : World :=
  {| h5 := h5 w; trace := trace w ++ es |}.

(** Does the writer accept a write to this node in this world? *)
Definition writable (w : World) (h5file path : string) (ow : bool) : bool :=
  match h5 w !! (h5file, path) with
  | Some _ => ow
  | None => true
  end.

End Driver.

Arguments time_start {Payload} _.
Arguments time_end {Payload} _.
Arguments is_valid {Payload} _.
Arguments payload {Payload} _.
Arguments Build_StatsRow {Payload} _ _ _ _.
Arguments is_valid_data {Payload} _.
Arguments vstack {Payload} _.
Arguments insert_row {Payload} _ _.
Arguments sort_by_time_start {Payload} _.
Arguments EvFromHdf {DL1Table Payload} _.
Arguments EvNewCalculator {DL1Table Payload} _.
Arguments EvTableLoader {DL1Table Payload} _.
Arguments EvReadEvents {DL1Table Payload} _ _.
Arguments EvFirstPass {DL1Table Payload} _ _ _.
Arguments EvSecondPass {DL1Table Payload} _ _ _ _.
Arguments EvLogInfo {DL1Table Payload} _.
Arguments EvWriteTable {DL1Table Payload} _ _ _ _.
Arguments h5 {DL1Table Payload} _.
Arguments trace {DL1Table Payload} _.
Arguments Build_World {DL1Table Payload} _ _.
Arguments raise {DL1Table Payload A} _ _.
Arguments emit {DL1Table Payload} _ _.
Arguments lift {DL1Table Payload A} _ _.
Arguments call {DL1Table Payload A} _ _ _.
Arguments store {DL1Table Payload} _ _ _ _ _.
Arguments write_table {DL1Table Payload} _ _ _ _ _.
Arguments stats_calculator {DL1Table} _.
Arguments dl1_tables {DL1Table} _.
Arguments Build_Tool {DL1Table} _ _.
Arguments setup {DL1Table Payload} _ _ _ _ _ _.
Arguments aggregate {DL1Table Payload} _ _ _ _ _ _ _.
Arguments start_one {DL1Table Payload} _ _ _ _ _ _ _.
Arguments start_loop {DL1Table Payload} _ _ _ _ _ _.
Arguments start {DL1Table Payload} _ _ _ _ _.
Arguments finish {DL1Table Payload} _ _.
Arguments initialize {DL1Table Payload} _ _.
Arguments run_configured {DL1Table Payload} _ _ _ _ _ _ _ _.
Arguments run {DL1Table Payload} _ _ _ _ _ _ _ _.
Arguments events_during {DL1Table Payload A} _ _.
Arguments first_pass_calls {DL1Table Payload} _.
Arguments second_pass_calls {DL1Table Payload} _.
Arguments written_tables {DL1Table Payload} _.
Arguments col_names_passed {DL1Table Payload} _.
Arguments writable {DL1Table Payload} _ _ _ _.
Arguments log_events {DL1Table Payload} _ _.

(** *** More observers, and the end of the module *)

(** The messages written with [self.log.info]. *)
Definition log_messages {DL1Table Payload : Type}
    (es : list (Event DL1Table Payload)) : list string :=
  flat_map (fun e => match e with
                     | EvLogInfo m => [m]
                     | _ => []
                     end) es.

(** The calls of [read_telescope_events_by_id]: the file and the
    telescopes asked for. *)
Definition read_events_calls {DL1Table Payload : Type}
    (es : list (Event DL1Table Payload)) : list (option string * TelIds) :=
  flat_map (fun e => match e with
                     | EvReadEvents url tels => [(url, tels)]
                     | _ => []
                     end) es.

(** [main]: build the tool from the command line and run it. *)
Definition main {DL1Table Payload : Type}
    (from_hdf : option string -> result Subarray)
    (PixelStatisticsCalculator : Config -> Subarray -> result Calculator)
    (TableLoader : option string -> result unit)
    (read_telescope_events_by_id :
       option string -> TelIds -> result (list (Z * DL1Table)))
    (first_pass :
       Calculator -> DL1Table -> Z -> string -> result (StatsTable Payload))
    (second_pass :
       Calculator -> DL1Table -> list bool -> Z -> string
       -> result (StatsTable Payload))
    (argv : RawConfig) : M DL1Table Payload unit :=
  run from_hdf PixelStatisticsCalculator TableLoader read_telescope_events_by_id first_pass second_pass argv.

(** The last statement of the module, executed when the module is loaded
    under the name [name]: [if __name__ == "main": main()]. *)
Definition module_guard {DL1Table Payload : Type}
    (from_hdf : option string -> result Subarray)
    (PixelStatisticsCalculator : Config -> Subarray -> result Calculator)
    (TableLoader : option string -> result unit)
    (read_telescope_events_by_id :
       option string -> TelIds -> result (list (Z * DL1Table)))
    (first_pass :
       Calculator -> DL1Table -> Z -> string -> result (StatsTable Payload))
    (second_pass :
       Calculator -> DL1Table -> list bool -> Z -> string
       -> result (StatsTable Payload))
    (name : string) (argv : RawConfig) : M DL1Table Payload unit :=
  if String.eqb name "main" then
    main from_hdf PixelStatisticsCalculator TableLoader read_telescope_events_by_id first_pass second_pass argv
  else lift (Ok tt).

(** ** The chunk windower *)

Module ChunkWindower.

Local Open Scope nat_scope.

(** A chunk: a contiguous range of event indices. *)
Record Chunk : Type := {
  start_index : nat;
  chunk_length : nat
}.

Definition ceil_div (a b : nat) : nat := (a + b - 1) / b.

(** The [i]-th window of length [n], offset by [shift], cut at the end of a
    table of [len] events. *)
Definition chunk_at (n shift len i : nat) : Chunk :=
  {| start_index := shift + i * n;
     chunk_length := Nat.min n (len - (shift + i * n)) |}.

(** Modelled from the spec: the windower is part of the statistics engine
    (ctapipe.monitoring), which is not among the sources.  Section 4.1 of
    the specification: without shift the chunks are contiguous and
    exhaustive, chunk [i] starts at [i * N] and the last chunk may be
    shorter; with a shift the boundaries are offset by [shift] events; a
    table with fewer than [N] events gives a single short chunk. *)
Definition windows (n shift len : nat) : list Chunk :=
  if len <? n then [ {| start_index := 0; chunk_length := len |} ]
  else map (chunk_at n shift len) (seq 0 (ceil_div (len - shift) n)).

(** Modelled from the spec: the entry point of the windower (section 4.1):
    it fails with a configuration error if [N <= 0] and raises no error
    otherwise. *)
Definition chunk_windower {A : Type} (table : list A) (N : Z) (shift : nat)
  : result (list Chunk) :=
  if (N <=? 0)%Z then
    Raise (ToolConfigurationError "chunk_length must be at least 1")
  else Ok (windows (Z.to_nat N) shift (length table)).




End ChunkWindower.

(** The errors the specification files under ConfigurationError. *)
Definition is_configuration_error (e : Exn) : bool :=
  match e with
  | ToolConfigurationError _ | TraitError _ => true
  | _ => false
  end.

(** ** A small observatory to run the driver on *)

Module Demo.

(** An event table reduced to what the demo calculator reads: per chunk of
    events, its start time and whether its statistics come out usable. *)
Definition Table : Type := list (Z * bool).

Definition row (t0 t1 : Z) (v : bool) : StatsRow unit :=
  {| time_start := t0; time_end := t1; is_valid := v; payload := tt |}.

(** Telescope 13 has no usable data. *)
Definition first_pass (_ : Calculator) (t : Table) (tel_id : Z)
    (_ : string) : result (StatsTable unit) :=
  if tel_id =? 13 then Raise (ValueError "no usable events")
  else Ok (map (fun c => row (fst c) (fst c + 10) (snd c)) t).

(** The shifted chunks around the invalid ones; the shifted chunk is usable
    when the chunk after the invalid one is. *)
Fixpoint shifted (t : Table) : StatsTable unit :=
  match t with
  | [] => []
  | (t0, false) :: rest =>
      row (t0 + 5) (t0 + 15)
          (match rest with (_, v) :: _ => v | [] => false end)
        :: shifted rest
  | (_, true) :: rest => shifted rest
  end.

Definition second_pass (_ : Calculator) (t : Table) (_ : list bool)
    (_ : Z) (_ : string) : result (StatsTable unit) :=
  Ok (shifted t).

Definition from_hdf (url : option string) : result Subarray :=
  match url with
  | Some _ => Ok {| tel_ids := [1; 2; 13; 4] |}
  | None => Raise (OSError "no input file")
  end.

Definition table_of (tel_id : Z) : Table :=
  if tel_id =? 2 then [(0, true); (10, false); (20, false); (30, true)]
  else [(0, true); (10, true)].

Definition PixelStatisticsCalculator (cfg : Config) (_ : Subarray)
  : result Calculator :=
  Ok {| chunk_shift := chunk_shift_cfg cfg |}.

Definition TableLoader (url : option string) : result unit :=
  match url with
  | Some _ => Ok tt
  | None => Raise (OSError "no input file")
  end.

Definition read_telescope_events_by_id (_ : option string) (tels : TelIds)
  : result (list (Z * Table)) :=
  match tels with
  | IdsTuple ids => Ok (map (fun i => (i, table_of i)) ids)
  | IdsSet ids => Ok (map (fun i => (i, table_of i)) (elements ids))
  end.

Definition cfg : Config :=
  {| input_url := Some "input.dl1.h5";
     allowed_tels := None;
     dl1a_column_name := "image";
     output_column_name := "statistics";
     output_path := "monitoring.h5";
     overwrite := false;
     chunk_shift_cfg := Some 5 |}.

Definition tool : Tool Table :=
  {| stats_calculator := {| chunk_shift := Some 5 |};
     dl1_tables := map (fun i => (i, table_of i)) [1; 2; 13; 4] |}.

Definition w0 : World Table unit := {| h5 := ∅; trace := [] |}.

(** Telescope 2: what the two passes return. *)
Definition s1 : StatsTable unit :=
  [row 0 10 true; row 10 20 false; row 20 30 false; row 30 40 true].

Definition s2 : StatsTable unit := [row 15 25 false; row 25 35 true].

(** The telescopes handled before telescope 13, and the world they
    leave. *)
Definition pre : list (Z * Table) := [(1, table_of 1); (2, table_of 2)].

Definition w_pre : World Table unit :=
  fst (start_loop first_pass second_pass cfg tool pre w0).

(** A configuration that writes over its input. *)
Definition cfg_same : Config :=
  {| input_url := Some "monitoring.h5";
     allowed_tels := None;
     dl1a_column_name := "image";
     output_column_name := "statistics";
     output_path := "monitoring.h5";
     overwrite := true;
     chunk_shift_cfg := None |}.

(** The output file when telescope 1 was written by an earlier run. *)
Definition w_old : World Table unit :=
  {| h5 := {[ ("monitoring.h5",
               "/dl1/monitoring/telescope/statistics/tel_001")
              := [row 0 10 false] ]};
     trace := [] |}.

(** The same configuration with the overwrite flag. *)
Definition cfg_overwrite : Config :=
  {| input_url := Some "input.dl1.h5";
     allowed_tels := Some (list_to_set [7; 2; 7]);
     dl1a_column_name := "image";
     output_column_name := "statistics";
     output_path := "monitoring.h5";
     overwrite := true;
     chunk_shift_cfg := Some 5 |}.

(** A dictionary of tables whose passes all succeed. *)
Definition tool_ok : Tool Table :=
  {| stats_calculator := {| chunk_shift := Some 5 |};
     dl1_tables := pre |}.

(** A configuration without an input file. *)
Definition cfg_noinput : Config :=
  {| input_url := None;
     allowed_tels := None;
     dl1a_column_name := "image";
     output_column_name := "statistics";
     output_path := "monitoring.h5";
     overwrite := false;
     chunk_shift_cfg := None |}.

(** The command line of the demo. *)
Definition argv : RawConfig :=
  {| raw_input_url := Some "input.dl1.h5";
     raw_allowed_tels := None;
     raw_dl1a_column_name := None;
     raw_output_column_name := "statistics";
     raw_output_path := "monitoring.h5";
     raw_overwrite := false;
     raw_chunk_shift := Some 5 |}.

End Demo.

(** * Properties *)

(** ** Formatting *)

Example format_03d_7 : Str.format_03d 7 = "007".
Proof. reflexivity. Qed.

Example format_03d_neg5 : Str.format_03d (-5) = "-05".
Proof. reflexivity. Qed.

Example format_03d_1234 : Str.format_03d 1234 = "1234".
Proof. reflexivity. Qed.

Example format_03d_0 : Str.format_03d 0 = "000".
Proof. reflexivity. Qed.

Example lower_mixed : Str.lower "Peak_TIME" = "peak_time".
Proof. reflexivity. Qed.

(** The Kelvin sign lowers to [k], so a name spelt with it is a spelling
    of [peak_time]; the dotted capital I lowers to two code points, so a
    name spelt with it is no spelling of [image]. *)
Example lower_kelvin :
  Str.lower ("PEA" ++ Str.kelvin_sign ++ "_time")%string = "peak_time".
Proof. reflexivity. Qed.

Example kelvin_spelling_accepted :
  set_dl1a_column_name (Some (PyStr ("PEA" ++ Str.kelvin_sign ++ "_time")%string))
  = Ok "peak_time".
Proof. reflexivity. Qed.

Example lower_capital_i_dot :
  Str.lower (Str.capital_i_dot ++ "MAGE")%string
  = (Str.small_i_dot ++ "mage")%string.
Proof. reflexivity. Qed.

Example capital_i_dot_spelling_rejected :
  is_ok (set_dl1a_column_name (Some (PyStr (Str.capital_i_dot ++ "MAGE")%string)))
  = false.
Proof. reflexivity. Qed.

Lemma parse_N_zeros k s : Str.parse_N (Str.zeros k ++ s) = Str.parse_N s.
Proof.
  unfold Str.parse_N. induction k as [|k IH]; simpl; [reflexivity|].
  destruct (NilEmpty.uint_of_string (Str.zeros k ++ s)) as [d|];
    destruct (NilEmpty.uint_of_string s) as [d'|]; simpl in *;
    congruence.
Qed.

Lemma parse_N_digits n : Str.parse_N (Str.digits n) = Some n.
Proof.
  unfold Str.parse_N, Str.digits. rewrite NilEmpty.usu. simpl.
  f_equal. apply DecimalN.Unsigned.of_to.
Qed.

Lemma parse_N_zfill k n : Str.parse_N (Str.zfill k (Str.digits n)) = Some n.
Proof. unfold Str.zfill. rewrite parse_N_zeros. apply parse_N_digits. Qed.

(** A padded number without sign starts with a digit. *)
Lemma parse_Z_unsigned k n :
  Str.parse_Z (Str.zfill k (Str.digits n)) = Some (Z.of_N n).
Proof.
  pose proof (parse_N_zfill k n) as H.
  unfold Str.zfill, Str.digits in *.
  destruct (k - String.length (NilEmpty.string_of_uint (N.to_uint n)))%nat
    as [|j]; simpl in *.
  - destruct (N.to_uint n) as [|d|d|d|d|d|d|d|d|d|d] eqn:E; simpl in *;
      try (rewrite H; reflexivity).
    destruct n as [|p]; [discriminate E|].
    exfalso. exact (DecimalPos.Unsigned.to_uint_nonnil p E).
  - rewrite H. reflexivity.
Qed.

Lemma parse_format_03d z : Str.parse_Z (Str.format_03d z) = Some z.
Proof.
  destruct z as [|p|p]; unfold Str.format_03d.
  - apply (parse_Z_unsigned 3 0%N).
  - rewrite parse_Z_unsigned. reflexivity.
  - simpl. rewrite parse_N_zfill. reflexivity.
Qed.

Lemma format_03d_inj a b : Str.format_03d a = Str.format_03d b -> a = b.
Proof.
  intros H. pose proof (parse_format_03d a) as Ha.
  rewrite H, parse_format_03d in Ha. congruence.
Qed.

Lemma append_cancel_l p s t : (p ++ s = p ++ t)%string -> s = t.
Proof. induction p as [|c p IH]; simpl; [auto|]. intros [= H]. auto. Qed.

Lemma append_assoc_string a b c : (a ++ (b ++ c) = (a ++ b) ++ c)%string.
Proof.
  induction a as [|x a IH]; [reflexivity|].
  change (String x (a ++ (b ++ c)) = String x ((a ++ b) ++ c))%string.
  now rewrite IH.
Qed.

Lemma prefix_append p s : String.prefix p (p ++ s)%string = true.
Proof.
  induction p as [|c p IH].
  - now destruct s.
  - change (String.prefix (String c p) (String c (p ++ s)) = true)%string.
    simpl. destruct (Ascii.ascii_dec c c) as [_|Hne];
      [exact IH|now elim Hne].
Qed.

Local Open Scope list_scope.

(** ** Sorting by [time_start] *)

Section SortFacts.

Context {Payload : Type}.

Implicit Types (r : StatsRow Payload) (t : StatsTable Payload).

Lemma insert_row_perm r t : Permutation (insert_row r t) (r :: t).
Proof.
  induction t as [|r' t IH]; simpl; [reflexivity|].
  destruct (time_start r <=? time_start r'); [reflexivity|].
  rewrite IH. apply perm_swap.
Qed.

Lemma sort_by_time_start_perm t : Permutation (sort_by_time_start t) t.
Proof.
  induction t as [|r t IH]; simpl; [reflexivity|].
  rewrite insert_row_perm. now constructor.
Qed.

Lemma insert_row_sorted r t :
  StronglySorted Z.le (map time_start t) ->
  StronglySorted Z.le (map time_start (insert_row r t)).
Proof.
  induction t as [|r' t IH]; simpl; intros Hs.
  - repeat constructor.
  - inversion Hs as [|? ? Hs' Hall]; subst.
    destruct (Z.leb_spec (time_start r) (time_start r')) as [Hle|Hgt]; simpl.
    + constructor; [assumption|]. constructor; [assumption|].
      eapply Forall_impl; [exact Hall|]. simpl. intros; lia.
    + constructor; [auto|].
      assert (Hp : Permutation (map time_start (insert_row r t))
                               (time_start r :: map time_start t)).
      { change (time_start r :: map time_start t)
          with (map time_start (r :: t)).
        apply Permutation_map, insert_row_perm. }
      rewrite List.Forall_forall in *. intros x Hx.
      apply (Permutation_in _ Hp) in Hx. destruct Hx as [<-|Hx]; [lia|auto].
Qed.

Lemma sort_by_time_start_sorted t :
  StronglySorted Z.le (map time_start (sort_by_time_start t)).
Proof.
  induction t as [|r t IH]; simpl; [constructor|].
  now apply insert_row_sorted.
Qed.

(** Rows with the same start time keep their order: the sort is stable.
    Inserting in front of a table that starts later changes nothing. *)
Lemma sort_by_time_start_id t :
  StronglySorted Z.le (map time_start t) -> sort_by_time_start t = t.
Proof.
  induction t as [|r t IH]; simpl; intros Hs; [reflexivity|].
  inversion Hs as [|? ? Hs' Hall]; subst. rewrite IH by assumption.
  destruct t as [|r' t]; simpl; [reflexivity|].
  inversion Hall; subst.
  destruct (Z.leb_spec (time_start r) (time_start r')); [reflexivity|lia].
Qed.

End SortFacts.

(** ** The driver *)

Section DriverFacts.

Context {DL1Table Payload : Type}.

Variable from_hdf : option string -> result Subarray.
Variable PixelStatisticsCalculator : Config -> Subarray -> result Calculator.
Variable TableLoader : option string -> result unit.
Variable read_telescope_events_by_id :
  option string -> TelIds -> result (list (Z * DL1Table)).
Variable first_pass :
  Calculator -> DL1Table -> Z -> string -> result (StatsTable Payload).
Variable second_pass :
  Calculator -> DL1Table -> list bool -> Z -> string
  -> result (StatsTable Payload).

Implicit Types (w : World DL1Table Payload) (cfg : Config)
  (tool : Tool DL1Table) (tel : Z) (tbl : DL1Table)
  (s : StatsTable Payload).

Lemma log_events_app w es es' :
  log_events (log_events w es) es' = log_events w (es ++ es').
Proof. unfold log_events; simpl. now rewrite <- app_assoc. Qed.

Lemma events_during_app {A} (m : M DL1Table Payload A) w es :
  trace (fst (m w)) = trace w ++ es -> events_during m w = es.
Proof. unfold events_during. intros ->. apply drop_app_length. Qed.

Lemma np_any_not_true s :
  np_any_not (is_valid_data s) = true <-> Exists (fun r => is_valid r = false) s.
Proof.
  unfold np_any_not, is_valid_data. rewrite existsb_exists, List.Exists_exists.
  split.
  - intros (b & Hin & Hb). apply in_map_iff in Hin as (r & <- & Hr).
    exists r. split; [assumption|]. now destruct (is_valid r).
  - intros (r & Hr & Hv). exists (is_valid r). split; [now apply in_map|].
    now rewrite Hv.
Qed.

(** What [aggregate] does, case by case. *)
Lemma aggregate_eq cfg tool tel tbl w :
  aggregate first_pass second_pass cfg tool tel tbl w =
  let calc := stats_calculator tool in
  let col := dl1a_column_name cfg in
  let e1 := EvFirstPass tbl tel col in
  match first_pass calc tbl tel col with
  | Raise e => (log_events w [e1], Raise e)
  | Ok s1 =>
      match chunk_shift calc with
      | Some _ =>
          if np_any_not (is_valid_data s1) then
            let e2 := EvSecondPass tbl (is_valid_data s1) tel col in
            match second_pass calc tbl (is_valid_data s1) tel col with
            | Raise e => (log_events w [e1; e2], Raise e)
            | Ok s2 =>
                (log_events w [e1; e2],
                 Ok (sort_by_time_start (vstack [s1; s2])))
            end
          else (log_events w [e1; EvLogInfo (skip_message tel)], Ok s1)
      | None => (log_events w [e1], Ok s1)
      end
  end.
Proof.
  unfold aggregate, call, emit, lift, log_events, mbind, M_bind, mret, M_ret.
  simpl.
  destruct (first_pass _ _ _ _) as [s1|e]; [|reflexivity].
  destruct (chunk_shift _); [|reflexivity].
  destruct (np_any_not _); simpl.
  - destruct (second_pass _ _ _ _ _); simpl; now rewrite <- app_assoc.
  - now rewrite <- app_assoc.
Qed.

Lemma write_table_eq (t : StatsTable Payload) f p o w :
  write_table t f p o w =
  if writable w f p o then
    ({| h5 := <[(f, p) := t]> (h5 w);
        trace := trace w ++ [EvWriteTable t f p o] |}, Ok tt)
  else
    (log_events w [EvWriteTable t f p o],
     Raise (OSError "Table already exists in output file, use append or overwrite")).
Proof.
  unfold write_table, store, writable, emit, log_events, mbind, M_bind. simpl.
  destruct (h5 w !! (f, p)); [destruct o|]; reflexivity.
Qed.

Lemma start_one_eq cfg tool tel tbl w :
  start_one first_pass second_pass cfg tool tel tbl w =
  match aggregate first_pass second_pass cfg tool tel tbl w with
  | (w1, Ok t) =>
      write_table t (output_path cfg) (node_path cfg tel) (overwrite cfg) w1
  | (w1, Raise e) => (w1, Raise e)
  end.
Proof. reflexivity. Qed.

(** The result of [aggregate] does not depend on the world, and the
    output file is not touched before the write. *)
Lemma aggregate_result_indep cfg tool tel tbl w w' :
  snd (aggregate first_pass second_pass cfg tool tel tbl w) =
  snd (aggregate first_pass second_pass cfg tool tel tbl w').
Proof.
  rewrite !aggregate_eq. simpl.
  destruct (first_pass _ _ _ _); [|reflexivity].
  destruct (chunk_shift _); [|reflexivity].
  destruct (np_any_not _); [|reflexivity].
  destruct (second_pass _ _ _ _ _); reflexivity.
Qed.

Lemma aggregate_h5 cfg tool tel tbl w :
  h5 (fst (aggregate first_pass second_pass cfg tool tel tbl w)) = h5 w.
Proof.
  rewrite aggregate_eq. simpl.
  destruct (first_pass _ _ _ _); [|reflexivity].
  destruct (chunk_shift _); [|reflexivity].
  destruct (np_any_not _); [|reflexivity].
  destruct (second_pass _ _ _ _ _); reflexivity.
Qed.

Ltac run_one :=
  unfold events_during; rewrite ?start_one_eq, ?aggregate_eq; cbv zeta.

Ltac read_trace :=
  unfold log_events; simpl;
  rewrite <- ?app_assoc; rewrite ?drop_app_length; simpl.

(** C1.  In one iteration of the loop, once the first pass has returned
    its table, the second pass is called if and only if a chunk shift is
    configured and some entry of the [is_valid] column is false; when it
    is called, it is called once, with the same event table, the
    [is_valid] data of the first pass as [valid_chunks], the same
    telescope and the same column name. *)
Theorem second_pass_runs_iff cfg tool tel tbl w s1 :
  first_pass (stats_calculator tool) tbl tel (dl1a_column_name cfg) = Ok s1 ->
  let calls :=
    second_pass_calls
      (events_during (start_one first_pass second_pass cfg tool tel tbl) w) in
  (calls <> [] <->
     chunk_shift (stats_calculator tool) <> None
     /\ Exists (fun r => is_valid r = false) s1)
  /\ (calls <> [] ->
      calls = [(tbl, is_valid_data s1, tel, dl1a_column_name cfg)]).
Proof.
  intros H1. cbv zeta. rewrite <- np_any_not_true. run_one. rewrite H1.
  destruct (chunk_shift _) as [sh|];
    [destruct (np_any_not _) eqn:Hany;
     [destruct (second_pass _ _ _ _ _) as [s2|e]|]|];
    cbv beta iota; rewrite ?write_table_eq;
    try destruct (writable _ _ _ _); read_trace;
    (split; [split|]); try easy; intros []; congruence.
Qed.

Lemma writable_log_events w es f p o :
  writable (log_events w es) f p o = writable w f p o.
Proof. reflexivity. Qed.

Lemma vstack_pair s1 s2 : vstack [s1; s2] = s1 ++ s2.
Proof. unfold vstack. simpl. now rewrite app_nil_r. Qed.

(** C2.  When the second pass runs and returns, the table of the
    telescope, which is the table handed to the writer, is the first-pass
    rows followed by the second-pass rows, sorted by [time_start]: its
    start times are non-decreasing, and it holds exactly the rows of both
    passes, each as often as it occurs, so every invalid row of the first
    pass is still there. *)
Theorem merged_table_sorted cfg tool tel tbl w s1 s2 :
  first_pass (stats_calculator tool) tbl tel (dl1a_column_name cfg) = Ok s1 ->
  chunk_shift (stats_calculator tool) <> None ->
  Exists (fun r => is_valid r = false) s1 ->
  second_pass (stats_calculator tool) tbl (is_valid_data s1) tel
              (dl1a_column_name cfg) = Ok s2 ->
  let final := sort_by_time_start (s1 ++ s2) in
  snd (aggregate first_pass second_pass cfg tool tel tbl w) = Ok final
  /\ written_tables
       (events_during (start_one first_pass second_pass cfg tool tel tbl) w)
     = [(final, output_path cfg, node_path cfg tel, overwrite cfg)]
  /\ StronglySorted Z.le (map time_start final)
  /\ Permutation final (s1 ++ s2)
  /\ length final = (length s1 + length s2)%nat
  /\ (forall r, In r s1 -> is_valid r = false -> In r final).
Proof.
  intros H1 Hshift Hinv H2 final.
  apply np_any_not_true in Hinv.
  assert (Hperm : Permutation final (s1 ++ s2))
    by apply sort_by_time_start_perm.
  repeat split.
  - rewrite aggregate_eq. cbv zeta. rewrite H1.
    destruct (chunk_shift _); [|congruence].
    rewrite Hinv, H2, vstack_pair. reflexivity.
  - run_one. rewrite H1. destruct (chunk_shift _); [|congruence].
    rewrite Hinv, H2, vstack_pair. cbv beta iota. rewrite write_table_eq.
    destruct (writable _ _ _ _); read_trace; reflexivity.
  - apply sort_by_time_start_sorted.
  - exact Hperm.
  - rewrite (Permutation_length Hperm). apply length_app.
  - intros r Hr _. apply (Permutation_in _ (Permutation_sym Hperm)).
    apply in_or_app. now left.
Qed.

(** C3.  Without a chunk shift, or with one when every chunk of the first
    pass is valid, the second pass is not called and the table handed to
    the writer, and stored when the writer accepts it, is the table the
    first pass returned, row for row. *)
Theorem single_pass_unchanged cfg tool tel tbl w s1 :
  first_pass (stats_calculator tool) tbl tel (dl1a_column_name cfg) = Ok s1 ->
  chunk_shift (stats_calculator tool) = None
  \/ Forall (fun r => is_valid r = true) s1 ->
  let run := start_one first_pass second_pass cfg tool tel tbl in
  snd (aggregate first_pass second_pass cfg tool tel tbl w) = Ok s1
  /\ second_pass_calls (events_during run w) = []
  /\ written_tables (events_during run w)
     = [(s1, output_path cfg, node_path cfg tel, overwrite cfg)]
  /\ (writable w (output_path cfg) (node_path cfg tel) (overwrite cfg) = true ->
      snd (run w) = Ok tt
      /\ h5 (fst (run w)) !! (output_path cfg, node_path cfg tel) = Some s1).
Proof.
  intros H1 Hcase run.
  assert (Hskip : chunk_shift (stats_calculator tool) = None
                  \/ np_any_not (is_valid_data s1) = false).
  { destruct Hcase as [Hn|Hall]; [now left|right].
    destruct (np_any_not _) eqn:Hany; [|reflexivity].
    apply np_any_not_true, List.Exists_exists in Hany as (r & Hr & Hv).
    rewrite List.Forall_forall in Hall. specialize (Hall r Hr). congruence. }
  subst run. repeat split.
  - rewrite aggregate_eq. cbv zeta. rewrite H1.
    destruct (chunk_shift _); [|reflexivity].
    destruct Hskip as [ ? | -> ]; [discriminate|reflexivity].
  - run_one. rewrite H1.
    destruct (chunk_shift _);
      [destruct Hskip as [ ? | -> ]; [discriminate|]|];
      cbv beta iota; rewrite write_table_eq;
      destruct (writable _ _ _ _); read_trace; reflexivity.
  - run_one. rewrite H1.
    destruct (chunk_shift _);
      [destruct Hskip as [ ? | -> ]; [discriminate|]|];
      cbv beta iota; rewrite write_table_eq;
      destruct (writable _ _ _ _); read_trace; reflexivity.
  - run_one. rewrite H1.
    destruct (chunk_shift _);
      [destruct Hskip as [ ? | -> ]; [discriminate|]|];
      cbv beta iota; rewrite write_table_eq, writable_log_events, H;
      reflexivity.
  - run_one. rewrite H1.
    destruct (chunk_shift _);
      [destruct Hskip as [ ? | -> ]; [discriminate|]|];
      cbv beta iota; rewrite write_table_eq, writable_log_events, H;
      simpl; apply lookup_insert_eq.
Qed.

(** C8.  When the second pass itself returns invalid chunks, the driver
    raises nothing: the merged table is computed, it keeps every row of
    either pass whose [is_valid] is false, it is the table handed to the
    writer, and when the writer accepts it the iteration ends normally
    with that table stored at the node of the telescope. *)
Theorem invalid_rows_persist cfg tool tel tbl w s1 s2 :
  first_pass (stats_calculator tool) tbl tel (dl1a_column_name cfg) = Ok s1 ->
  chunk_shift (stats_calculator tool) <> None ->
  Exists (fun r => is_valid r = false) s1 ->
  second_pass (stats_calculator tool) tbl (is_valid_data s1) tel
              (dl1a_column_name cfg) = Ok s2 ->
  Exists (fun r => is_valid r = false) s2 ->
  let run := start_one first_pass second_pass cfg tool tel tbl in
  let final := sort_by_time_start (s1 ++ s2) in
  snd (aggregate first_pass second_pass cfg tool tel tbl w) = Ok final
  /\ (forall r, In r (s1 ++ s2) -> is_valid r = false -> In r final)
  /\ Exists (fun r => is_valid r = false) final
  /\ written_tables (events_during run w)
     = [(final, output_path cfg, node_path cfg tel, overwrite cfg)]
  /\ (writable w (output_path cfg) (node_path cfg tel) (overwrite cfg) = true ->
      snd (run w) = Ok tt
      /\ h5 (fst (run w)) !! (output_path cfg, node_path cfg tel) = Some final).
Proof.
  intros H1 Hshift Hinv1 H2 Hinv2 run final.
  assert (Hperm : Permutation (s1 ++ s2) final)
    by (symmetry; apply sort_by_time_start_perm).
  apply np_any_not_true in Hinv1.
  assert (Hrun : forall w', run w' =
            write_table final (output_path cfg) (node_path cfg tel)
              (overwrite cfg)
              (log_events w' [EvFirstPass tbl tel (dl1a_column_name cfg);
                              EvSecondPass tbl (is_valid_data s1) tel
                                (dl1a_column_name cfg)])).
  { intros w'. subst run. run_one. rewrite H1.
    destruct (chunk_shift _); [|congruence].
    now rewrite Hinv1, H2, vstack_pair. }
  repeat split.
  - rewrite aggregate_eq. cbv zeta. rewrite H1.
    destruct (chunk_shift _); [|congruence].
    now rewrite Hinv1, H2, vstack_pair.
  - intros r Hr _. exact (Permutation_in _ Hperm Hr).
  - apply List.Exists_exists in Hinv2 as (r & Hr & Hv).
    apply List.Exists_exists. exists r. split; [|exact Hv].
    apply (Permutation_in _ Hperm), in_or_app. now right.
  - unfold events_during. rewrite Hrun, write_table_eq.
    destruct (writable _ _ _ _); read_trace; reflexivity.
  - rewrite Hrun, write_table_eq, writable_log_events, H. reflexivity.
  - rewrite Hrun, write_table_eq, writable_log_events, H. simpl.
    apply lookup_insert_eq.
Qed.

(** *** The loop over the telescopes *)

Lemma start_loop_cons cfg tool tel tbl rest w :
  start_loop first_pass second_pass cfg tool ((tel, tbl) :: rest) w =
  match start_one first_pass second_pass cfg tool tel tbl w with
  | (w1, Ok _) => start_loop first_pass second_pass cfg tool rest w1
  | (w1, Raise e) => (w1, Raise e)
  end.
Proof. reflexivity. Qed.

Lemma start_loop_app cfg tool pre post w :
  start_loop first_pass second_pass cfg tool (pre ++ post) w =
  match start_loop first_pass second_pass cfg tool pre w with
  | (w1, Ok _) => start_loop first_pass second_pass cfg tool post w1
  | (w1, Raise e) => (w1, Raise e)
  end.
Proof.
  revert w. induction pre as [|[tel tbl] pre IH]; intros w.
  - reflexivity.
  - simpl app. rewrite !start_loop_cons.
    destruct (start_one _ _ _ _ _ _ w) as [w1 [u|e]]; [apply IH|reflexivity].
Qed.

(** One iteration either stores the table of its telescope at the node of
    that telescope, or fails and leaves the output file as it was. *)
Lemma start_one_h5 cfg tool tel tbl w :
  match snd (start_one first_pass second_pass cfg tool tel tbl w) with
  | Ok _ =>
      exists t,
        snd (aggregate first_pass second_pass cfg tool tel tbl w) = Ok t
        /\ h5 (fst (start_one first_pass second_pass cfg tool tel tbl w))
           = <[(output_path cfg, node_path cfg tel) := t]> (h5 w)
  | Raise _ =>
      h5 (fst (start_one first_pass second_pass cfg tool tel tbl w)) = h5 w
  end.
Proof.
  rewrite start_one_eq.
  pose proof (aggregate_h5 cfg tool tel tbl w) as Hh.
  destruct (aggregate _ _ _ _ _ _ w) as [w1 [t|e]]; simpl in *; [|exact Hh].
  rewrite write_table_eq. unfold writable. rewrite Hh.
  destruct (h5 w !! _); [destruct (overwrite cfg)|]; simpl; eauto.
Qed.

Lemma node_path_inj cfg a b : node_path cfg a = node_path cfg b -> a = b.
Proof.
  unfold node_path. intros H.
  repeat apply append_cancel_l in H. now apply format_03d_inj.
Qed.

(** The loop touches no node but those of its telescopes. *)
Lemma start_loop_other cfg tool items w k :
  (forall tel tbl, In (tel, tbl) items ->
                   k <> (output_path cfg, node_path cfg tel)) ->
  h5 (fst (start_loop first_pass second_pass cfg tool items w)) !! k
  = h5 w !! k.
Proof.
  revert w. induction items as [|[tel tbl] rest IH]; intros w Hk.
  - reflexivity.
  - rewrite start_loop_cons.
    pose proof (start_one_h5 cfg tool tel tbl w) as H1.
    destruct (start_one _ _ _ _ _ _ w) as [w1 [u|e]]; simpl in H1.
    + destruct H1 as (t & _ & Hw1).
      rewrite IH by (intros tel' tbl' Hin'; apply (Hk tel' tbl'); now right).
      rewrite Hw1. apply lookup_insert_ne.
      intros Heq. apply (Hk tel tbl); [now left|now symmetry].
    + simpl. now rewrite H1.
Qed.

(** After a loop that ended normally, every telescope has its table in
    the output file. *)
Lemma start_loop_written cfg tool items w :
  NoDup (map fst items) ->
  is_ok (snd (start_loop first_pass second_pass cfg tool items w)) = true ->
  forall tel tbl, In (tel, tbl) items ->
    exists t,
      snd (aggregate first_pass second_pass cfg tool tel tbl w) = Ok t
      /\ h5 (fst (start_loop first_pass second_pass cfg tool items w))
           !! (output_path cfg, node_path cfg tel) = Some t.
Proof.
  revert w. induction items as [|[tel0 tbl0] rest IH]; intros w Hnd Hok tel tbl Hin.
  - destruct Hin.
  - simpl in Hnd. apply NoDup_cons in Hnd as [Hfresh Hnd].
    rewrite start_loop_cons in *.
    pose proof (start_one_h5 cfg tool tel0 tbl0 w) as H1.
    destruct (start_one _ _ _ _ _ _ w) as [w1 [u|e]]; simpl in H1;
      [|discriminate Hok].
    destruct H1 as (t & Ht & Hw1).
    destruct Hin as [[= -> ->]|Hin].
    + exists t. split; [exact Ht|].
      rewrite start_loop_other.
      * rewrite Hw1. apply lookup_insert_eq.
      * intros tel' tbl' Hin' Heq. apply (f_equal snd) in Heq.
        cbn [snd] in Heq. apply node_path_inj in Heq. subst tel'.
        apply Hfresh. apply list_elem_of_In, in_map_iff.
        now exists (tel, tbl').
    + destruct (IH w1 Hnd Hok tel tbl Hin) as (t' & Ht' & Hl).
      exists t'. split; [|exact Hl].
      rewrite <- Ht'. apply aggregate_result_indep.
Qed.

(** C10.  The loop handles the telescopes in order, each in the world the
    previous ones left: when the telescopes of [pre] have been handled,
    each of them has its table in the output file, and only then is the
    next telescope started.  When that one fails, in its passes or in its
    write, the loop ends with that failure and handles no later
    telescope, and the tables of the telescopes of [pre] are in the output
    file still. *)
Theorem no_atomicity_across_telescopes cfg tool pre tel tbl post w w1 :
  NoDup (map fst pre) ->
  start_loop first_pass second_pass cfg tool pre w = (w1, Ok tt) ->
  let next := start_one first_pass second_pass cfg tool tel tbl w1 in
  let r := start_loop first_pass second_pass cfg tool
             (pre ++ (tel, tbl) :: post) w in
  r = match next with
      | (w2, Ok _) => start_loop first_pass second_pass cfg tool post w2
      | (w2, Raise e) => (w2, Raise e)
      end
  /\ (forall e, snd next = Raise e -> r = next)
  /\ forall tel' tbl', In (tel', tbl') pre ->
       exists t,
         snd (aggregate first_pass second_pass cfg tool tel' tbl' w) = Ok t
         /\ h5 w1 !! (output_path cfg, node_path cfg tel') = Some t
         /\ (forall e, snd next = Raise e ->
             h5 (fst r) !! (output_path cfg, node_path cfg tel') = Some t).
Proof.
  intros Hnd Hpre next r.
  assert (Hr : r = match next with
                   | (w2, Ok _) =>
                       start_loop first_pass second_pass cfg tool post w2
                   | (w2, Raise e) => (w2, Raise e)
                   end).
  { subst r next. now rewrite start_loop_app, Hpre, start_loop_cons. }
  assert (Hfail : forall e, snd next = Raise e -> r = next).
  { intros e He. rewrite Hr. destruct next as [w2 [u|e']];
      [discriminate He|reflexivity]. }
  split; [exact Hr|]. split; [exact Hfail|].
  intros tel' tbl' Hin.
  destruct (start_loop_written cfg tool pre w Hnd) with (tel := tel') (tbl := tbl')
    as (t & Ht & Hl); [now rewrite Hpre|exact Hin|].
  rewrite Hpre in Hl. simpl in Hl.
  exists t. split; [exact Ht|]. split; [exact Hl|].
  intros e He. rewrite (Hfail e He).
  pose proof (start_one_h5 cfg tool tel tbl w1) as H1.
  fold next in H1. rewrite He in H1. now rewrite H1.
Qed.

(** *** Configuration errors *)

Lemma same_path_true (input : option string) (output : string) :
  same_path input output = true <-> input = Some output.
Proof.
  destruct input as [p|]; simpl; [|easy].
  rewrite String.eqb_eq. split; congruence.
Qed.

(** C4.  With the input path equal to the output path, [setup] raises
    [ToolConfigurationError] in the world it was started in: nothing has
    been read, no pass has run, nothing has been written; and the run
    ends with that error in that same world. *)
Theorem same_input_output_aborts cfg w :
  input_url cfg = Some (output_path cfg) ->
  exists msg,
    setup from_hdf PixelStatisticsCalculator TableLoader read_telescope_events_by_id cfg w
      = (w, Raise (ToolConfigurationError msg))
    /\ run_configured from_hdf PixelStatisticsCalculator TableLoader read_telescope_events_by_id
         first_pass second_pass cfg w
       = (w, Raise (ToolConfigurationError msg))
    /\ events_during (run_configured from_hdf PixelStatisticsCalculator TableLoader read_telescope_events_by_id
                        first_pass second_pass cfg) w = [].
Proof.
  intros Hsame. apply same_path_true in Hsame.
  eexists. unfold events_during, run_configured, setup, mbind, M_bind.
  rewrite Hsame. unfold raise. simpl.
  repeat split. apply drop_all.
Qed.

Lemma col_names_passed_app (es es' : list (Event DL1Table Payload)) :
  col_names_passed (es ++ es') = col_names_passed es ++ col_names_passed es'.
Proof. apply flat_map_app. Qed.

Lemma start_one_cols cfg tool tel tbl w :
  exists es,
    trace (fst (start_one first_pass second_pass cfg tool tel tbl w))
      = trace w ++ es
    /\ Forall (eq (dl1a_column_name cfg)) (col_names_passed es).
Proof.
  run_one.
  destruct (first_pass _ _ _ _) as [s1|e1];
    [destruct (chunk_shift _) as [sh|];
     [destruct (np_any_not _);
      [destruct (second_pass _ _ _ _ _) as [s2|e2]|]|]|];
    cbv beta iota; rewrite ?write_table_eq;
    try destruct (writable _ _ _ _); unfold log_events; simpl;
    rewrite <- ?app_assoc; (eexists; split; [reflexivity|]);
    simpl; repeat constructor.
Qed.

Lemma start_loop_cols cfg tool items w :
  exists es,
    trace (fst (start_loop first_pass second_pass cfg tool items w))
      = trace w ++ es
    /\ Forall (eq (dl1a_column_name cfg)) (col_names_passed es).
Proof.
  revert w. induction items as [|[tel tbl] rest IH]; intros w.
  - exists []. split; [symmetry; apply app_nil_r|constructor].
  - rewrite start_loop_cons.
    destruct (start_one_cols cfg tool tel tbl w) as (es & Ht & Hc).
    destruct (start_one _ _ _ _ _ _ w) as [w1 [u|e]]; simpl in Ht.
    + destruct (IH w1) as (es' & Ht' & Hc').
      exists (es ++ es'). rewrite Ht', Ht, app_assoc. split; [reflexivity|].
      rewrite col_names_passed_app. now apply Forall_app.
    + exists es. now split.
Qed.

Lemma caseless_find_columns (name : string) :
  Traits.caseless_find dl1a_column_values name =
  if decide (In (Str.lower name) dl1a_column_values)
  then Some (Str.lower name) else None.
Proof.
  unfold dl1a_column_values, Traits.caseless_find.
  change (Str.lower "image") with "image".
  change (Str.lower "peak_time") with "peak_time".
  change (Str.lower "variance") with "variance".
  destruct (String.eqb_spec "image" (Str.lower name)) as [<-|H1];
    [reflexivity|].
  destruct (String.eqb_spec "peak_time" (Str.lower name)) as [<-|H2];
    [reflexivity|].
  destruct (String.eqb_spec "variance" (Str.lower name)) as [<-|H3];
    [reflexivity|].
  destruct (decide _) as [Hin|]; [|reflexivity].
  simpl in Hin. intuition congruence.
Qed.

(** C6, as the code has it.  The column name is matched against
    [image], [peak_time] and [variance] by comparing lower cases, as
    [str.lower()] gives them: a name whose lower case is one of the three
    is accepted and stored as that member; any other name, and any value
    that is not a string, is rejected with a [TraitError], and the run
    then ends with that error in the world it started in.  Whatever is
    stored is a member of the set, and both passes are called with
    exactly the stored name. *)
Theorem column_name_caseless_enum :
  (forall name, In (Str.lower name) dl1a_column_values ->
     set_dl1a_column_name (Some (PyStr name)) = Ok (Str.lower name))
  /\ (forall name, ~ In (Str.lower name) dl1a_column_values ->
        exists msg,
          set_dl1a_column_name (Some (PyStr name)) = Raise (TraitError msg))
  /\ (forall z, exists msg,
        set_dl1a_column_name (Some (PyInt z)) = Raise (TraitError msg)
        /\ set_dl1a_column_name (Some PyNone) = Raise (TraitError msg))
  /\ (forall raw col, set_dl1a_column_name raw = Ok col ->
        In col dl1a_column_values)
  /\ (forall raw w e,
        set_dl1a_column_name (raw_dl1a_column_name raw) = Raise e ->
        run from_hdf PixelStatisticsCalculator TableLoader read_telescope_events_by_id first_pass second_pass raw w
          = (w, Raise e))
  /\ (forall cfg tool w,
        Forall (eq (dl1a_column_name cfg))
          (col_names_passed
             (events_during (start first_pass second_pass cfg tool) w))).
Proof.
  repeat split.
  - intros name Hin. unfold set_dl1a_column_name, Traits.CaselessStrEnum.
    rewrite caseless_find_columns. now destruct (decide _).
  - intros name Hin. unfold set_dl1a_column_name, Traits.CaselessStrEnum.
    rewrite caseless_find_columns. destruct (decide _); [easy|eauto].
  - intros z. eexists. split; reflexivity.
  - intros [[|name|z]|] col; unfold set_dl1a_column_name, Traits.CaselessStrEnum;
      try discriminate.
    + rewrite caseless_find_columns.
      destruct (decide _) as [Hin|]; [|discriminate]. now intros [= <-].
    + intros [= <-]. simpl. auto.
  - intros raw w e He. unfold run, initialize, mbind, M_bind.
    now rewrite He.
  - intros cfg tool w. unfold start.
    destruct (start_loop_cols cfg tool (dl1_tables tool) w) as (es & Ht & Hc).
    now rewrite (events_during_app _ _ _ Ht).
Qed.

(** *** [setup] beyond the path check *)

(** X1.  [setup] never modifies the output file, whether it returns or
    raises. *)
Theorem setup_never_writes cfg w :
  h5 (fst (setup from_hdf PixelStatisticsCalculator TableLoader
                 read_telescope_events_by_id cfg w)) = h5 w.
Proof.
  unfold setup, call, emit, lift, raise, mbind, M_bind, mret, M_ret.
  destruct (same_path _ _); [reflexivity|]. simpl.
  destruct (from_hdf _) as [sub|e]; [|reflexivity]. simpl.
  destruct (PixelStatisticsCalculator _ _) as [calc|e]; [|reflexivity]. simpl.
  destruct (TableLoader _) as [u|e]; [|reflexivity]. simpl.
  destruct (read_telescope_events_by_id _ _); reflexivity.
Qed.

(** X2.  With distinct input and output paths, once the subarray is
    loaded: when the constructor of the calculator or the constructor of
    the table loader raises, [setup] raises that exception and the tables
    are not read; otherwise the tables are read exactly once, from the
    input file, for the set [allowed_tels] when it is set (as it is, not
    restricted to the telescopes of the subarray) and for the tuple of
    the telescopes of the subarray otherwise; then the calculator that was
    constructed and the dictionary the loader returns are stored as they
    are, and an exception of the loader is the exception of [setup]. *)
Theorem setup_telescope_selection cfg w sub :
  input_url cfg <> Some (output_path cfg) ->
  from_hdf (input_url cfg) = Ok sub ->
  let ids := match allowed_tels cfg with
             | Some tels => IdsSet tels
             | None => IdsTuple (tel_ids sub)
             end in
  let run := setup from_hdf PixelStatisticsCalculator TableLoader
                   read_telescope_events_by_id cfg in
  match PixelStatisticsCalculator cfg sub with
  | Raise e =>
      snd (run w) = Raise e /\ read_events_calls (events_during run w) = []
  | Ok calc =>
      match TableLoader (input_url cfg) with
      | Raise e =>
          snd (run w) = Raise e
          /\ read_events_calls (events_during run w) = []
      | Ok _ =>
          read_events_calls (events_during run w) = [(input_url cfg, ids)]
          /\ snd (run w)
             = match read_telescope_events_by_id (input_url cfg) ids with
               | Ok tables =>
                   Ok {| stats_calculator := calc; dl1_tables := tables |}
               | Raise e => Raise e
               end
      end
  end.
Proof.
  intros Hdiff Hsub ids run.
  assert (Hp : same_path (input_url cfg) (output_path cfg) = false).
  { destruct (same_path _ _) eqn:E; [|reflexivity].
    now apply same_path_true in E. }
  subst run.
  unfold events_during, setup, call, emit, lift, mbind, M_bind, mret, M_ret.
  rewrite Hp. simpl. rewrite Hsub. simpl. subst ids.
  destruct (PixelStatisticsCalculator cfg sub) as [calc|e]; simpl.
  - destruct (TableLoader (input_url cfg)) as [u|e]; simpl.
    + destruct (allowed_tels cfg) as [tels|];
        destruct (read_telescope_events_by_id _ _); simpl;
        rewrite <- !app_assoc, drop_app_length; split; reflexivity.
    + rewrite <- !app_assoc, drop_app_length. split; reflexivity.
  - rewrite <- !app_assoc, drop_app_length. split; reflexivity.
Qed.

(** X3.  When the subarray description cannot be loaded, [setup] raises
    that exception at once: the tables are not read and no tool state
    is produced. *)
Theorem setup_subarray_failure_stops cfg w e :
  input_url cfg <> Some (output_path cfg) ->
  from_hdf (input_url cfg) = Raise e ->
  setup from_hdf PixelStatisticsCalculator TableLoader
        read_telescope_events_by_id cfg w
  = (log_events w [EvFromHdf (input_url cfg)], Raise e)
  /\ read_events_calls
       (events_during (setup from_hdf PixelStatisticsCalculator TableLoader
                             read_telescope_events_by_id cfg) w)
     = [].
Proof.
  intros Hdiff Hsub.
  assert (Hp : same_path (input_url cfg) (output_path cfg) = false).
  { destruct (same_path _ _) eqn:E; [|reflexivity].
    now apply same_path_true in E. }
  unfold events_during, setup, call, emit, lift, mbind, M_bind.
  rewrite Hp. simpl. rewrite Hsub. simpl.
  rewrite drop_app_length. split; reflexivity.
Qed.

(** *** One iteration of [start] *)

(** The calls of one iteration: the first pass once, and one write when
    the passes returned. *)
Lemma start_one_trace cfg tool tel tbl w :
  exists es,
    trace (fst (start_one first_pass second_pass cfg tool tel tbl w))
      = trace w ++ es
    /\ first_pass_calls es = [(tbl, tel, dl1a_column_name cfg)]
    /\ written_tables es
       = match snd (aggregate first_pass second_pass cfg tool tel tbl w) with
         | Ok t => [(t, output_path cfg, node_path cfg tel, overwrite cfg)]
         | Raise _ => []
         end.
Proof.
  rewrite start_one_eq, !aggregate_eq. cbv zeta.
  destruct (first_pass _ _ _ _) as [s1|e1];
    [destruct (chunk_shift _) as [sh|];
     [destruct (np_any_not _);
      [destruct (second_pass _ _ _ _ _) as [s2|e2]|]|]|];
    cbv beta iota; rewrite ?write_table_eq;
    try destruct (writable _ _ _ _); unfold log_events; simpl;
    rewrite <- ?app_assoc; (eexists; split; [reflexivity|]);
    split; reflexivity.
Qed.


(** X5.  When the node of the telescope is already in the output file:
    without the overwrite flag the iteration raises [OSError] after the
    passes have run and the file keeps the old table; with the flag the
    node is replaced by the new table. *)
Theorem existing_node_needs_overwrite cfg tool tel tbl w t :
  is_Some (h5 w !! (output_path cfg, node_path cfg tel)) ->
  snd (aggregate first_pass second_pass cfg tool tel tbl w) = Ok t ->
  let r := start_one first_pass second_pass cfg tool tel tbl w in
  (overwrite cfg = false ->
     (exists msg, snd r = Raise (OSError msg)) /\ h5 (fst r) = h5 w)
  /\ (overwrite cfg = true ->
        snd r = Ok tt
        /\ h5 (fst r) = <[(output_path cfg, node_path cfg tel) := t]> (h5 w)).
Proof.
  intros [old Hold] Hagg r. subst r. rewrite start_one_eq.
  pose proof (aggregate_h5 cfg tool tel tbl w) as Hh.
  destruct (aggregate _ _ _ _ _ _ w) as [w1 [t'|e]]; simpl in *;
    [|discriminate Hagg].
  injection Hagg as ->. rewrite write_table_eq. unfold writable.
  rewrite Hh, Hold. split; intros ->; simpl; rewrite ?Hh; eauto.
Qed.

Lemma np_any_not_false s :
  np_any_not (is_valid_data s) = false <-> Forall (fun r => is_valid r = true) s.
Proof.
  split.
  - intros Hf. apply List.Forall_forall. intros r Hr.
    destruct (is_valid r) eqn:Hv; [reflexivity|].
    assert (Hex : np_any_not (is_valid_data s) = true).
    { apply np_any_not_true, List.Exists_exists. eauto. }
    congruence.
  - intros Hall. destruct (np_any_not _) eqn:Hany; [|reflexivity].
    apply np_any_not_true, List.Exists_exists in Hany as (r & Hr & Hv).
    rewrite List.Forall_forall in Hall. specialize (Hall r Hr). congruence.
Qed.

(** X6.  The message that the second pass is skipped is logged if and
    only if a chunk shift is configured and every chunk of the first
    pass is valid (an empty first-pass table included); nothing is
    logged without a chunk shift, nor when the second pass runs. *)
Theorem skip_message_iff cfg tool tel tbl w s1 :
  first_pass (stats_calculator tool) tbl tel (dl1a_column_name cfg) = Ok s1 ->
  let msgs :=
    log_messages
      (events_during (start_one first_pass second_pass cfg tool tel tbl) w) in
  (msgs <> [] <->
     chunk_shift (stats_calculator tool) <> None
     /\ Forall (fun r => is_valid r = true) s1)
  /\ (msgs <> [] -> msgs = [skip_message tel]).
Proof.
  intros H1. cbv zeta. rewrite <- np_any_not_false. run_one. rewrite H1.
  destruct (chunk_shift _) as [sh|];
    [destruct (np_any_not _) eqn:Hany;
     [destruct (second_pass _ _ _ _ _) as [s2|e]|]|];
    cbv beta iota; rewrite ?write_table_eq;
    try destruct (writable _ _ _ _); read_trace;
    (split; [split|]); try easy; intros []; congruence.
Qed.

(** Permuting a table keeps the number of rows that pass a test. *)
Lemma filter_length_perm {A : Type} (f : A -> bool) (l l' : list A) :
  Permutation l l' ->
  length (List.filter f l) = length (List.filter f l').
Proof.
  induction 1 as [|x l l' _ IH|x y l|l l' l'' _ IH1 _ IH2]; simpl.
  - reflexivity.
  - destruct (f x); simpl; congruence.
  - destruct (f x), (f y); reflexivity.
  - congruence.
Qed.

(** X7.  When both passes return, the merged table has as many invalid
    rows as the two passes together: the merge repairs no flag, and the
    table written after a second pass always holds an invalid row. *)
Theorem merged_invalid_count cfg tool tel tbl w s1 s2 :
  first_pass (stats_calculator tool) tbl tel (dl1a_column_name cfg) = Ok s1 ->
  chunk_shift (stats_calculator tool) <> None ->
  Exists (fun r => is_valid r = false) s1 ->
  second_pass (stats_calculator tool) tbl (is_valid_data s1) tel
              (dl1a_column_name cfg) = Ok s2 ->
  exists final,
    snd (aggregate first_pass second_pass cfg tool tel tbl w) = Ok final
    /\ length (List.filter (fun r => negb (is_valid r)) final)
       = (length (List.filter (fun r => negb (is_valid r)) s1)
          + length (List.filter (fun r => negb (is_valid r)) s2))%nat
    /\ (1 <= length (List.filter (fun r => negb (is_valid r)) final))%nat.
Proof.
  intros H1 Hshift Hinv H2.
  exists (sort_by_time_start (s1 ++ s2)).
  assert (Hcount :
    length (List.filter (fun r => negb (is_valid r))
                        (sort_by_time_start (s1 ++ s2)))
    = (length (List.filter (fun r => negb (is_valid r)) s1)
       + length (List.filter (fun r => negb (is_valid r)) s2))%nat).
  { rewrite (filter_length_perm _ _ _ (sort_by_time_start_perm (s1 ++ s2))).
    now rewrite List.filter_app, length_app. }
  split; [|split; [exact Hcount|]].
  - apply np_any_not_true in Hinv. rewrite aggregate_eq. cbv zeta.
    rewrite H1. destruct (chunk_shift _); [|congruence].
    now rewrite Hinv, H2, vstack_pair.
  - rewrite Hcount. apply List.Exists_exists in Hinv as (r & Hr & Hv).
    assert (Hin : In r (List.filter (fun r => negb (is_valid r)) s1)).
    { apply List.filter_In. split; [exact Hr|]. now rewrite Hv. }
    destruct (List.filter _ s1); [destruct Hin|simpl; lia].
Qed.

(** *** The whole loop *)

Lemma first_pass_calls_app (es es' : list (Event DL1Table Payload)) :
  first_pass_calls (es ++ es') = first_pass_calls es ++ first_pass_calls es'.
Proof. apply flat_map_app. Qed.

Lemma written_tables_app (es es' : list (Event DL1Table Payload)) :
  written_tables (es ++ es') = written_tables es ++ written_tables es'.
Proof. apply flat_map_app. Qed.

Lemma start_loop_trace cfg tool items w :
  exists es,
    trace (fst (start_loop first_pass second_pass cfg tool items w))
      = trace w ++ es
    /\ (exists rest,
          map (fun it => (snd it, fst it, dl1a_column_name cfg)) items
          = first_pass_calls es ++ rest)
    /\ (is_ok (snd (start_loop first_pass second_pass cfg tool items w))
        = true ->
        first_pass_calls es
        = map (fun it => (snd it, fst it, dl1a_column_name cfg)) items
        /\ map (fun c => (snd (fst (fst c)), snd (fst c))) (written_tables es)
           = map (fun it => (output_path cfg, node_path cfg (fst it))) items).
Proof.
  revert w. induction items as [|[tel tbl] rest IH]; intros w.
  - exists []. rewrite app_nil_r. split; [reflexivity|].
    split; [now exists []|]. intros _. split; reflexivity.
  - rewrite start_loop_cons.
    destruct (start_one_trace cfg tool tel tbl w) as (es & Ht & Hf & Hw).
    pose proof (start_one_h5 cfg tool tel tbl w) as Hh.
    destruct (start_one _ _ _ _ _ _ w) as [w1 [u|e]]; simpl in Ht, Hh.
    + destruct Hh as (t & Hagg & _). rewrite Hagg in Hw.
      destruct (IH w1) as (es' & Ht' & (rest' & Hpre) & Hok).
      exists (es ++ es'). rewrite Ht', Ht, app_assoc.
      split; [reflexivity|].
      rewrite first_pass_calls_app, written_tables_app, Hf, Hw. simpl.
      split.
      * exists rest'. now rewrite Hpre.
      * intros Hsucc. destruct (Hok Hsucc) as [-> ->]. split; reflexivity.
    + exists es. split; [exact Ht|]. rewrite Hf. simpl.
      split; [now eexists|discriminate].
Qed.

(** X8.  [start] calls the first pass once per telescope, in the order
    of the dictionary, each time with the table of that telescope and the
    configured column: the calls made are an initial part of that list,
    and all of it when [start] returns.  Then the writer was called once
    per telescope, in the same order, on the output file at the node of
    that telescope.  An empty dictionary gives no call at all. *)
Theorem start_calls_in_order cfg tool w :
  let es := events_during (start first_pass second_pass cfg tool) w in
  let expected :=
    map (fun it => (snd it, fst it, dl1a_column_name cfg)) (dl1_tables tool) in
  (exists rest, expected = first_pass_calls es ++ rest)
  /\ (is_ok (snd (start first_pass second_pass cfg tool w)) = true ->
      first_pass_calls es = expected
      /\ map (fun c => (snd (fst (fst c)), snd (fst c))) (written_tables es)
         = map (fun it => (output_path cfg, node_path cfg (fst it)))
               (dl1_tables tool)).
Proof.
  unfold start.
  destruct (start_loop_trace cfg tool (dl1_tables tool) w)
    as (es & Ht & Hpre & Hok).
  cbv zeta. rewrite (events_during_app _ _ _ Ht). now split.
Qed.

(** X9.  [start] changes nothing in another file, and nothing at a node
    that is not the node of one of its telescopes, whether it returns or
    raises. *)
Theorem start_touches_only_its_nodes cfg tool w (f p : string) :
  f <> output_path cfg
  \/ (forall tel tbl, In (tel, tbl) (dl1_tables tool) ->
                      p <> node_path cfg tel) ->
  h5 (fst (start first_pass second_pass cfg tool w)) !! (f, p)
  = h5 w !! (f, p).
Proof.
  intros Hother. unfold start. apply start_loop_other.
  intros tel tbl Hin Heq. injection Heq as Hf Hp.
  destruct Hother as [Hne|Hne]; [now apply Hne|].
  now apply (Hne tel tbl Hin).
Qed.

(** X10.  When [start] returns, the output file holds, for every
    telescope of the dictionary, the table aggregated for that telescope
    at the node of that telescope. *)
Theorem start_success_all_written cfg tool w :
  NoDup (map fst (dl1_tables tool)) ->
  is_ok (snd (start first_pass second_pass cfg tool w)) = true ->
  forall tel tbl, In (tel, tbl) (dl1_tables tool) ->
    exists t,
      snd (aggregate first_pass second_pass cfg tool tel tbl w) = Ok t
      /\ h5 (fst (start first_pass second_pass cfg tool w))
           !! (output_path cfg, node_path cfg tel) = Some t.
Proof. unfold start. apply start_loop_written. Qed.

(** X11.  Every table [start] hands to the writer goes to the output
    file, at a node below the location that [finish] reports in its
    message; [finish] logs that message and the shutdown message, and
    touches neither the file nor anything else. *)
Theorem finish_reports_location cfg tool w w' :
  let location := ("/dl1/monitoring/telescope/" ++ output_column_name cfg)%string in
  log_messages (events_during (finish cfg) w')
  = [("DL1 monitoring data was stored in '" ++ output_path cfg
        ++ "' under '" ++ location ++ "'")%string;
     "Tool is shutting down"]
  /\ h5 (fst (finish cfg w')) = h5 w'
  /\ snd (finish cfg w') = Ok tt
  /\ Forall (fun c => snd (fst (fst c)) = output_path cfg
                      /\ String.prefix (location ++ "/tel_") (snd (fst c)) = true)
       (written_tables (events_during (start first_pass second_pass cfg tool) w)).
Proof.
  cbv zeta. split; [|split; [reflexivity|split; [reflexivity|]]].
  - unfold events_during, finish, emit, mbind, M_bind. simpl.
    rewrite <- app_assoc, drop_app_length. reflexivity.
  - unfold start. generalize (dl1_tables tool) as items. intros items.
    assert (Hgen : forall w0, exists es,
      trace (fst (start_loop first_pass second_pass cfg tool items w0))
        = trace w0 ++ es
      /\ Forall (fun c => snd (fst (fst c)) = output_path cfg
                   /\ String.prefix
                        (("/dl1/monitoring/telescope/"
                            ++ output_column_name cfg) ++ "/tel_")
                        (snd (fst c)) = true)
           (written_tables es)).
    { induction items as [|[tel tbl] rest IH]; intros w0.
      - exists []. rewrite app_nil_r. split; [reflexivity|constructor].
      - rewrite start_loop_cons.
        destruct (start_one_trace cfg tool tel tbl w0) as (es & Ht & _ & Hw).
        assert (Hone : Forall (fun c => snd (fst (fst c)) = output_path cfg
                   /\ String.prefix
                        (("/dl1/monitoring/telescope/"
                            ++ output_column_name cfg) ++ "/tel_")
                        (snd (fst c)) = true) (written_tables es)).
        { rewrite Hw. destruct (snd (aggregate _ _ _ _ _ _ w0));
            constructor; [|constructor]. cbn [fst snd].
          split; [reflexivity|]. unfold node_path.
          rewrite (append_assoc_string _ "/tel_" _).
          rewrite (append_assoc_string "/dl1/monitoring/telescope/" _ _).
          rewrite (append_assoc_string "/dl1/monitoring/telescope/" _ _).
          apply prefix_append. }
        destruct (start_one _ _ _ _ _ _ w0) as [w1 [u|e]]; simpl in Ht.
        + destruct (IH w1) as (es' & Ht' & Hc').
          exists (es ++ es'). rewrite Ht', Ht, app_assoc.
          split; [reflexivity|].
          rewrite written_tables_app. now apply Forall_app.
        + exists es. now split. }
    destruct (Hgen w) as (es & Ht & Hc).
    now rewrite (events_during_app _ _ _ Ht).
Qed.

(** *** The end of the module *)

(** X12.  The guard at the end of the module compares the module name
    with [main]: under any other name, the name [__main__] of a script
    included, loading the module runs nothing, whatever the command line;
    the world is left as it was. *)
Theorem module_guard_runs_only_as_main (name : string) argv w :
  name <> "main" ->
  module_guard from_hdf PixelStatisticsCalculator TableLoader read_telescope_events_by_id first_pass second_pass
    name argv w = (w, Ok tt).
Proof.
  intros Hname. unfold module_guard.
  destruct (String.eqb_spec name "main"); [contradiction|reflexivity].
Qed.

End DriverFacts.

(** ** The chunk windower *)

Section WindowerFacts.

Import ChunkWindower.

Local Open Scope nat_scope.







(** C5.  The windower returns chunks for every chunk length of at least
    one, whatever the table and the shift; it raises exactly when the
    chunk length is zero or negative, and what it raises is a
    configuration error; a table with fewer events than the chunk length
    gives one chunk, holding the whole table. *)
Theorem windower_accepts_positive_lengths {A : Type} (table : list A)
    (N : Z) (shift : nat) :
  ((1 <= N)%Z -> exists cs, chunk_windower table N shift = Ok cs)
  /\ ((exists e, chunk_windower table N shift = Raise e) <-> (N <= 0)%Z)
  /\ (forall e, chunk_windower table N shift = Raise e ->
                is_configuration_error e = true)
  /\ ((1 <= N)%Z -> length table < Z.to_nat N ->
      chunk_windower table N shift
      = Ok [ {| start_index := 0; chunk_length := length table |} ]).
Proof.
  unfold chunk_windower.
  destruct (Z.leb_spec N 0) as [Hle|Hgt]; repeat split.
  - lia.
  - intros _. exact Hle.
  - intros _. eauto.
  - intros e [= <-]. reflexivity.
  - lia.
  - eauto.
  - intros [e He]. discriminate He.
  - lia.
  - discriminate.
  - intros _ Hlen. unfold windows.
    destruct (Nat.ltb_spec (length table) (Z.to_nat N)); [reflexivity|lia].
Qed.


End WindowerFacts.

(** ** The nodes of the output file *)

Lemma length_zeros_append k s :
  String.length (Str.zeros k ++ s)%string = (k + String.length s)%nat.
Proof.
  induction k as [|k IH]; [reflexivity|].
  change (S (String.length (Str.zeros k ++ s)%string)
          = S (k + String.length s)). now rewrite IH.
Qed.

Lemma length_zfill k s : (k <= String.length (Str.zfill k s))%nat.
Proof. unfold Str.zfill. rewrite length_zeros_append. lia. Qed.

(** X13.  Two telescopes never share a node: the node paths of distinct
    telescope numbers differ, whatever the numbers (negative ones and
    numbers of more than three digits included). *)
Theorem node_paths_distinct cfg (a b : Z) :
  a <> b -> node_path cfg a <> node_path cfg b.
Proof. intros Hne Heq. apply Hne. exact (node_path_inj cfg a b Heq). Qed.

Lemma uint_string_nil d :
  String.length (NilEmpty.string_of_uint d) = 0%nat -> d = Nil.
Proof. destruct d; simpl; intros H; [reflexivity|discriminate H..]. Qed.

(** A numeral of fewer than three digits is below 100. *)
Lemma short_uint d :
  (String.length (NilEmpty.string_of_uint d) < 3)%nat -> (N.of_uint d < 100)%N.
Proof.
  intros H.
  destruct d as [|d|d|d|d|d|d|d|d|d|d]; [reflexivity|..];
    (destruct d as [|d|d|d|d|d|d|d|d|d|d]; [reflexivity|..];
     (assert (d = Nil) as -> by (apply uint_string_nil; simpl in H; lia);
      reflexivity)).
Qed.

Lemma digits_length n :
  (100 <= n)%N -> (3 <= String.length (Str.digits n))%nat.
Proof.
  intros Hn. unfold Str.digits.
  destruct (Nat.lt_ge_cases
              (String.length (NilEmpty.string_of_uint (N.to_uint n))) 3)
    as [Hlt|Hge]; [|exact Hge].
  apply short_uint in Hlt. rewrite DecimalN.Unsigned.of_to in Hlt. lia.
Qed.

Lemma is_digits_uint d : Str.is_digits (NilEmpty.string_of_uint d) = true.
Proof. induction d; simpl; auto. Qed.

Lemma is_digits_zeros_append k s :
  Str.is_digits (Str.zeros k ++ s)%string = Str.is_digits s.
Proof.
  induction k as [|k IH]; [reflexivity|].
  change (Str.is_digits (String "0" (Str.zeros k ++ s)%string)
          = Str.is_digits s). simpl. exact IH.
Qed.

Lemma zfill_long k s : (k <= String.length s)%nat -> Str.zfill k s = s.
Proof.
  intros H. unfold Str.zfill.
  replace (k - String.length s)%nat with 0%nat by lia. reflexivity.
Qed.

(** X14.  The telescope number is written with at least three
    characters and can always be read back from them.  A number that is
    not negative is written with decimal digits only; the numbers 0 to
    999 take exactly three of them; from 100 on the text is the decimal
    numeral of the number itself, without padding and with nothing cut
    off. *)
Theorem format_03d_width (z : Z) :
  (3 <= String.length (Str.format_03d z))%nat
  /\ Str.parse_Z (Str.format_03d z) = Some z
  /\ (0 <= z -> Str.is_digits (Str.format_03d z) = true)
  /\ (0 <= z < 1000 -> String.length (Str.format_03d z) = 3%nat)
  /\ (100 <= z -> Str.format_03d z = Str.digits (Z.to_N z)).
Proof.
  split; [|split; [apply parse_format_03d|split; [|split]]].
  - destruct z as [|p|p]; unfold Str.format_03d.
    + apply length_zfill.
    + apply length_zfill.
    + change (3 <= S (String.length (Str.zfill 2 (Str.digits (N.pos p)))))%nat.
      pose proof (length_zfill 2 (Str.digits (N.pos p))). lia.
  - intros Hz. destruct z as [|p|p]; [| |lia];
      unfold Str.format_03d, Str.zfill, Str.digits;
      rewrite is_digits_zeros_append; apply is_digits_uint.
  - intros Hz.
    assert (Hall : forallb
              (fun n => Nat.eqb (String.length (Str.format_03d (Z.of_nat n))) 3)
              (seq 0 1000) = true) by (vm_compute; reflexivity).
    rewrite forallb_forall in Hall.
    specialize (Hall (Z.to_nat z)).
    rewrite Z2Nat.id in Hall by lia.
    apply Nat.eqb_eq, Hall, in_seq. lia.
  - intros Hz. destruct z as [|p|p]; [lia| |lia].
    unfold Str.format_03d. apply zfill_long, digits_length. simpl. lia.
Qed.

(** ** The properties at work on the demo observatory *)

Lemma second_pass_runs_iff_demo :
  Demo.first_pass (stats_calculator Demo.tool) (Demo.table_of 2) 2
                  (dl1a_column_name Demo.cfg) = Ok Demo.s1
  /\ let calls :=
       second_pass_calls
         (events_during
            (start_one Demo.first_pass Demo.second_pass Demo.cfg Demo.tool 2
                       (Demo.table_of 2)) Demo.w0) in
     (calls <> [] <->
        chunk_shift (stats_calculator Demo.tool) <> None
        /\ Exists (fun r => is_valid r = false) Demo.s1)
     /\ (calls <> [] ->
         calls = [(Demo.table_of 2, is_valid_data Demo.s1, 2,
                   dl1a_column_name Demo.cfg)]).
Proof.
  split; [reflexivity|].
  apply (second_pass_runs_iff Demo.first_pass Demo.second_pass Demo.cfg
           Demo.tool 2 (Demo.table_of 2) Demo.w0 Demo.s1).
  reflexivity.
Defined.

Lemma demo_s1_invalid : Exists (fun r => is_valid r = false) Demo.s1.
Proof. apply Exists_cons_tl, Exists_cons_hd. reflexivity. Defined.

Lemma demo_s2_invalid : Exists (fun r => is_valid r = false) Demo.s2.
Proof. apply Exists_cons_hd. reflexivity. Defined.

Lemma merged_table_sorted_demo :
  Demo.first_pass (stats_calculator Demo.tool) (Demo.table_of 2) 2
                  (dl1a_column_name Demo.cfg) = Ok Demo.s1
  /\ chunk_shift (stats_calculator Demo.tool) <> None
  /\ Exists (fun r => is_valid r = false) Demo.s1
  /\ Demo.second_pass (stats_calculator Demo.tool) (Demo.table_of 2)
       (is_valid_data Demo.s1) 2 (dl1a_column_name Demo.cfg) = Ok Demo.s2
  /\ let final := sort_by_time_start (Demo.s1 ++ Demo.s2) in
     snd (aggregate Demo.first_pass Demo.second_pass Demo.cfg Demo.tool 2
            (Demo.table_of 2) Demo.w0) = Ok final
     /\ written_tables
          (events_during
             (start_one Demo.first_pass Demo.second_pass Demo.cfg Demo.tool 2
                        (Demo.table_of 2)) Demo.w0)
        = [(final, output_path Demo.cfg, node_path Demo.cfg 2,
            overwrite Demo.cfg)]
     /\ StronglySorted Z.le (map time_start final)
     /\ Permutation final (Demo.s1 ++ Demo.s2)
     /\ length final = (length Demo.s1 + length Demo.s2)%nat
     /\ (forall r, In r Demo.s1 -> is_valid r = false -> In r final).
Proof.
  split; [reflexivity|]. split; [discriminate|].
  split; [exact demo_s1_invalid|]. split; [reflexivity|].
  apply (merged_table_sorted Demo.first_pass Demo.second_pass Demo.cfg
           Demo.tool 2 (Demo.table_of 2) Demo.w0 Demo.s1 Demo.s2);
    [reflexivity|discriminate|exact demo_s1_invalid|reflexivity].
Defined.

Lemma single_pass_unchanged_demo :
  let s := [Demo.row 0 10 true; Demo.row 10 20 true] in
  Demo.first_pass (stats_calculator Demo.tool) (Demo.table_of 1) 1
                  (dl1a_column_name Demo.cfg) = Ok s
  /\ (chunk_shift (stats_calculator Demo.tool) = None
      \/ Forall (fun r => is_valid r = true) s)
  /\ let run := start_one Demo.first_pass Demo.second_pass Demo.cfg
                  Demo.tool 1 (Demo.table_of 1) in
     snd (aggregate Demo.first_pass Demo.second_pass Demo.cfg Demo.tool 1
            (Demo.table_of 1) Demo.w0) = Ok s
     /\ second_pass_calls (events_during run Demo.w0) = []
     /\ written_tables (events_during run Demo.w0)
        = [(s, output_path Demo.cfg, node_path Demo.cfg 1,
            overwrite Demo.cfg)]
     /\ (writable Demo.w0 (output_path Demo.cfg) (node_path Demo.cfg 1)
           (overwrite Demo.cfg) = true ->
         snd (run Demo.w0) = Ok tt
         /\ h5 (fst (run Demo.w0))
              !! (output_path Demo.cfg, node_path Demo.cfg 1) = Some s).
Proof.
  intros s.
  assert (Hall : Forall (fun r : StatsRow unit => is_valid r = true) s)
    by (repeat constructor).
  split; [reflexivity|]. split; [right; exact Hall|].
  apply (single_pass_unchanged Demo.first_pass Demo.second_pass Demo.cfg
           Demo.tool 1 (Demo.table_of 1) Demo.w0 s);
    [reflexivity|right; exact Hall].
Defined.

Lemma invalid_rows_persist_demo :
  Demo.first_pass (stats_calculator Demo.tool) (Demo.table_of 2) 2
                  (dl1a_column_name Demo.cfg) = Ok Demo.s1
  /\ chunk_shift (stats_calculator Demo.tool) <> None
  /\ Exists (fun r => is_valid r = false) Demo.s1
  /\ Demo.second_pass (stats_calculator Demo.tool) (Demo.table_of 2)
       (is_valid_data Demo.s1) 2 (dl1a_column_name Demo.cfg) = Ok Demo.s2
  /\ Exists (fun r => is_valid r = false) Demo.s2
  /\ let run := start_one Demo.first_pass Demo.second_pass Demo.cfg
                  Demo.tool 2 (Demo.table_of 2) in
     let final := sort_by_time_start (Demo.s1 ++ Demo.s2) in
     snd (aggregate Demo.first_pass Demo.second_pass Demo.cfg Demo.tool 2
            (Demo.table_of 2) Demo.w0) = Ok final
     /\ (forall r, In r (Demo.s1 ++ Demo.s2) -> is_valid r = false ->
                   In r final)
     /\ Exists (fun r => is_valid r = false) final
     /\ written_tables (events_during run Demo.w0)
        = [(final, output_path Demo.cfg, node_path Demo.cfg 2,
            overwrite Demo.cfg)]
     /\ (writable Demo.w0 (output_path Demo.cfg) (node_path Demo.cfg 2)
           (overwrite Demo.cfg) = true ->
         snd (run Demo.w0) = Ok tt
         /\ h5 (fst (run Demo.w0))
              !! (output_path Demo.cfg, node_path Demo.cfg 2) = Some final).
Proof.
  split; [reflexivity|]. split; [discriminate|].
  split; [exact demo_s1_invalid|]. split; [reflexivity|].
  split; [exact demo_s2_invalid|].
  apply (invalid_rows_persist Demo.first_pass Demo.second_pass Demo.cfg
           Demo.tool 2 (Demo.table_of 2) Demo.w0 Demo.s1 Demo.s2);
    [reflexivity|discriminate|exact demo_s1_invalid|reflexivity
    |exact demo_s2_invalid].
Defined.

Lemma demo_pre_nodup : NoDup (map fst Demo.pre).
Proof.
  apply NoDup_cons. split; [|apply NoDup_singleton].
  intros H. apply list_elem_of_In in H. simpl in H.
  destruct H as [H|[]]. discriminate H.
Defined.

Lemma no_atomicity_across_telescopes_demo :
  NoDup (map fst Demo.pre)
  /\ start_loop Demo.first_pass Demo.second_pass Demo.cfg Demo.tool Demo.pre
       Demo.w0 = (Demo.w_pre, Ok tt)
  /\ let next := start_one Demo.first_pass Demo.second_pass Demo.cfg
                   Demo.tool 13 (Demo.table_of 13) Demo.w_pre in
     let r := start_loop Demo.first_pass Demo.second_pass Demo.cfg Demo.tool
                (Demo.pre ++ (13, Demo.table_of 13) :: [(4, Demo.table_of 4)])
                Demo.w0 in
     r = match next with
         | (w2, Ok _) =>
             start_loop Demo.first_pass Demo.second_pass Demo.cfg Demo.tool
               [(4, Demo.table_of 4)] w2
         | (w2, Raise e) => (w2, Raise e)
         end
     /\ (forall e, snd next = Raise e -> r = next)
     /\ forall tel' tbl', In (tel', tbl') Demo.pre ->
          exists t,
            snd (aggregate Demo.first_pass Demo.second_pass Demo.cfg
                   Demo.tool tel' tbl' Demo.w0) = Ok t
            /\ h5 Demo.w_pre !! (output_path Demo.cfg, node_path Demo.cfg tel')
               = Some t
            /\ (forall e, snd next = Raise e ->
                h5 (fst r) !! (output_path Demo.cfg, node_path Demo.cfg tel')
                = Some t).
Proof.
  split; [exact demo_pre_nodup|]. split; [reflexivity|].
  apply (no_atomicity_across_telescopes Demo.first_pass Demo.second_pass
           Demo.cfg Demo.tool Demo.pre 13 (Demo.table_of 13)
           [(4, Demo.table_of 4)] Demo.w0 Demo.w_pre);
    [exact demo_pre_nodup|reflexivity].
Defined.

(** On the demo observatory telescope 13 does fail, after the tables of
    telescopes 1 and 2 were written; telescope 4 is never handled. *)
Example demo_run_stops_at_13 :
  let r := start Demo.first_pass Demo.second_pass Demo.cfg Demo.tool Demo.w0 in
  snd r = Raise (ValueError "no usable events")
  /\ first_pass_calls (trace (fst r))
     = [(Demo.table_of 1, 1, "image"); (Demo.table_of 2, 2, "image");
        (Demo.table_of 13, 13, "image")]
  /\ map (fun c => snd (fst c)) (written_tables (trace (fst r)))
     = ["/dl1/monitoring/telescope/statistics/tel_001";
        "/dl1/monitoring/telescope/statistics/tel_002"]
  /\ h5 (fst r) !! ("monitoring.h5",
                    "/dl1/monitoring/telescope/statistics/tel_001")
     = Some [Demo.row 0 10 true; Demo.row 10 20 true].
Proof. repeat split. Qed.

Lemma same_input_output_aborts_demo :
  input_url Demo.cfg_same = Some (output_path Demo.cfg_same)
  /\ exists msg,
       setup Demo.from_hdf Demo.PixelStatisticsCalculator Demo.TableLoader Demo.read_telescope_events_by_id Demo.cfg_same
             Demo.w0
         = (Demo.w0, Raise (ToolConfigurationError msg))
       /\ run_configured Demo.from_hdf Demo.PixelStatisticsCalculator Demo.TableLoader Demo.read_telescope_events_by_id
            Demo.first_pass Demo.second_pass Demo.cfg_same Demo.w0
          = (Demo.w0, Raise (ToolConfigurationError msg))
       /\ events_during
            (run_configured Demo.from_hdf Demo.PixelStatisticsCalculator Demo.TableLoader Demo.read_telescope_events_by_id
               Demo.first_pass Demo.second_pass Demo.cfg_same) Demo.w0 = [].
Proof.
  split; [reflexivity|].
  apply (same_input_output_aborts Demo.from_hdf Demo.PixelStatisticsCalculator Demo.TableLoader
           Demo.read_telescope_events_by_id Demo.first_pass Demo.second_pass
           Demo.cfg_same Demo.w0).
  reflexivity.
Defined.


(** ** Where the code departs from the specification *)

(** C6 as stated fails: [IMAGE] is not one of the three column names, yet
    it is accepted, and what is stored and passed on is not the value
    that was configured. *)
Lemma column_name_other_case_accepted :
  ~ In "IMAGE" dl1a_column_values
  /\ set_dl1a_column_name (Some (PyStr "IMAGE")) = Ok "image"
  /\ "image" <> "IMAGE".
Proof.
  split; [|split; [reflexivity|discriminate]].
  simpl. intros [H|[H|[H|[]]]]; discriminate H.
Qed.


(** ** More of the driver at work *)

Example allowed_tels_is_a_set :
  allowed_tels Demo.cfg_overwrite = Some {[ 2; 7 ]}.
Proof. vm_compute. reflexivity. Qed.

Lemma setup_telescope_selection_demo :
  let sub := {| tel_ids := [1; 2; 13; 4] |} in
  input_url Demo.cfg_overwrite <> Some (output_path Demo.cfg_overwrite)
  /\ Demo.from_hdf (input_url Demo.cfg_overwrite) = Ok sub
  /\ let ids := match allowed_tels Demo.cfg_overwrite with
                | Some tels => IdsSet tels
                | None => IdsTuple (tel_ids sub)
                end in
     let run := setup (Payload := unit) Demo.from_hdf
                  Demo.PixelStatisticsCalculator Demo.TableLoader
                  Demo.read_telescope_events_by_id Demo.cfg_overwrite in
     match Demo.PixelStatisticsCalculator Demo.cfg_overwrite sub with
     | Raise e =>
         snd (run Demo.w0) = Raise e
         /\ read_events_calls (events_during run Demo.w0) = []
     | Ok calc =>
         match Demo.TableLoader (input_url Demo.cfg_overwrite) with
         | Raise e =>
             snd (run Demo.w0) = Raise e
             /\ read_events_calls (events_during run Demo.w0) = []
         | Ok _ =>
             read_events_calls (events_during run Demo.w0)
             = [(input_url Demo.cfg_overwrite, ids)]
             /\ snd (run Demo.w0)
                = match Demo.read_telescope_events_by_id
                          (input_url Demo.cfg_overwrite) ids with
                  | Ok tables =>
                      Ok {| stats_calculator := calc; dl1_tables := tables |}
                  | Raise e => Raise e
                  end
         end
     end.
Proof.
  intros sub. split; [discriminate|]. split; [reflexivity|].
  apply (setup_telescope_selection Demo.from_hdf
           Demo.PixelStatisticsCalculator Demo.TableLoader
           Demo.read_telescope_events_by_id Demo.cfg_overwrite Demo.w0 sub);
    [discriminate|reflexivity].
Defined.

Lemma setup_subarray_failure_stops_demo :
  input_url Demo.cfg_noinput <> Some (output_path Demo.cfg_noinput)
  /\ Demo.from_hdf (input_url Demo.cfg_noinput)
     = Raise (OSError "no input file")
  /\ setup Demo.from_hdf Demo.PixelStatisticsCalculator Demo.TableLoader Demo.read_telescope_events_by_id Demo.cfg_noinput
           Demo.w0
     = (log_events Demo.w0 [EvFromHdf (input_url Demo.cfg_noinput)],
        Raise (OSError "no input file"))
  /\ read_events_calls
       (events_during
          (setup (Payload := unit) Demo.from_hdf Demo.PixelStatisticsCalculator Demo.TableLoader
                 Demo.read_telescope_events_by_id Demo.cfg_noinput) Demo.w0)
     = [].
Proof.
  split; [discriminate|]. split; [reflexivity|].
  apply (setup_subarray_failure_stops Demo.from_hdf Demo.PixelStatisticsCalculator Demo.TableLoader
           Demo.read_telescope_events_by_id Demo.cfg_noinput Demo.w0
           (OSError "no input file")); [discriminate|reflexivity].
Defined.


Lemma demo_old_node :
  is_Some (h5 Demo.w_old !! (output_path Demo.cfg, node_path Demo.cfg 1)).
Proof. exists [Demo.row 0 10 false]. vm_compute. reflexivity. Defined.

Lemma existing_node_needs_overwrite_demo :
  let t := [Demo.row 0 10 true; Demo.row 10 20 true] in
  is_Some (h5 Demo.w_old !! (output_path Demo.cfg, node_path Demo.cfg 1))
  /\ snd (aggregate Demo.first_pass Demo.second_pass Demo.cfg Demo.tool 1
            (Demo.table_of 1) Demo.w_old) = Ok t
  /\ let r := start_one Demo.first_pass Demo.second_pass Demo.cfg Demo.tool 1
                (Demo.table_of 1) Demo.w_old in
     (overwrite Demo.cfg = false ->
        (exists msg, snd r = Raise (OSError msg))
        /\ h5 (fst r) = h5 Demo.w_old)
     /\ (overwrite Demo.cfg = true ->
           snd r = Ok tt
           /\ h5 (fst r)
              = <[(output_path Demo.cfg, node_path Demo.cfg 1) := t]>
                  (h5 Demo.w_old)).
Proof.
  intros t. split; [exact demo_old_node|]. split; [reflexivity|].
  apply (existing_node_needs_overwrite Demo.first_pass Demo.second_pass
           Demo.cfg Demo.tool 1 (Demo.table_of 1) Demo.w_old t);
    [exact demo_old_node|reflexivity].
Defined.

Lemma skip_message_iff_demo :
  let s := [Demo.row 0 10 true; Demo.row 10 20 true] in
  Demo.first_pass (stats_calculator Demo.tool) (Demo.table_of 1) 1
                  (dl1a_column_name Demo.cfg) = Ok s
  /\ let msgs :=
       log_messages
         (events_during
            (start_one Demo.first_pass Demo.second_pass Demo.cfg Demo.tool 1
                       (Demo.table_of 1)) Demo.w0) in
     (msgs <> [] <->
        chunk_shift (stats_calculator Demo.tool) <> None
        /\ Forall (fun r => is_valid r = true) s)
     /\ (msgs <> [] -> msgs = [skip_message 1]).
Proof.
  intros s. split; [reflexivity|].
  apply (skip_message_iff Demo.first_pass Demo.second_pass Demo.cfg
           Demo.tool 1 (Demo.table_of 1) Demo.w0 s).
  reflexivity.
Defined.

Lemma merged_invalid_count_demo :
  Demo.first_pass (stats_calculator Demo.tool) (Demo.table_of 2) 2
                  (dl1a_column_name Demo.cfg) = Ok Demo.s1
  /\ chunk_shift (stats_calculator Demo.tool) <> None
  /\ Exists (fun r => is_valid r = false) Demo.s1
  /\ Demo.second_pass (stats_calculator Demo.tool) (Demo.table_of 2)
       (is_valid_data Demo.s1) 2 (dl1a_column_name Demo.cfg) = Ok Demo.s2
  /\ exists final,
       snd (aggregate Demo.first_pass Demo.second_pass Demo.cfg Demo.tool 2
              (Demo.table_of 2) Demo.w0) = Ok final
       /\ length (List.filter (fun r => negb (is_valid r)) final)
          = (length (List.filter (fun r => negb (is_valid r)) Demo.s1)
             + length (List.filter (fun r => negb (is_valid r)) Demo.s2))%nat
       /\ (1 <= length (List.filter (fun r => negb (is_valid r)) final))%nat.
Proof.
  split; [reflexivity|]. split; [discriminate|].
  split; [exact demo_s1_invalid|]. split; [reflexivity|].
  apply (merged_invalid_count Demo.first_pass Demo.second_pass Demo.cfg
           Demo.tool 2 (Demo.table_of 2) Demo.w0 Demo.s1 Demo.s2);
    [reflexivity|discriminate|exact demo_s1_invalid|reflexivity].
Defined.

Lemma start_touches_only_its_nodes_demo :
  ("input.dl1.h5" <> output_path Demo.cfg
   \/ (forall tel tbl, In (tel, tbl) (dl1_tables Demo.tool) ->
                       "/dl1/event/subarray/trigger" <> node_path Demo.cfg tel))
  /\ h5 (fst (start Demo.first_pass Demo.second_pass Demo.cfg Demo.tool
                Demo.w_old))
       !! ("input.dl1.h5", "/dl1/event/subarray/trigger")
     = h5 Demo.w_old !! ("input.dl1.h5", "/dl1/event/subarray/trigger").
Proof.
  split; [left; discriminate|].
  apply (start_touches_only_its_nodes Demo.first_pass Demo.second_pass
           Demo.cfg Demo.tool Demo.w_old "input.dl1.h5"
           "/dl1/event/subarray/trigger").
  left. discriminate.
Defined.

Lemma start_success_all_written_demo :
  NoDup (map fst (dl1_tables Demo.tool_ok))
  /\ is_ok (snd (start Demo.first_pass Demo.second_pass Demo.cfg
                   Demo.tool_ok Demo.w0)) = true
  /\ forall tel tbl, In (tel, tbl) (dl1_tables Demo.tool_ok) ->
       exists t,
         snd (aggregate Demo.first_pass Demo.second_pass Demo.cfg
                Demo.tool_ok tel tbl Demo.w0) = Ok t
         /\ h5 (fst (start Demo.first_pass Demo.second_pass Demo.cfg
                       Demo.tool_ok Demo.w0))
              !! (output_path Demo.cfg, node_path Demo.cfg tel) = Some t.
Proof.
  split; [exact demo_pre_nodup|]. split; [reflexivity|].
  apply (start_success_all_written Demo.first_pass Demo.second_pass
           Demo.cfg Demo.tool_ok Demo.w0); [exact demo_pre_nodup|reflexivity].
Defined.

Lemma node_paths_distinct_demo :
  7 <> 1007 /\ node_path Demo.cfg 7 <> node_path Demo.cfg 1007.
Proof.
  split; [discriminate|].
  apply (node_paths_distinct Demo.cfg 7 1007). discriminate.
Defined.

Lemma module_guard_runs_only_as_main_demo :
  "__main__" <> "main"
  /\ module_guard Demo.from_hdf Demo.PixelStatisticsCalculator Demo.TableLoader Demo.read_telescope_events_by_id
       Demo.first_pass Demo.second_pass "__main__" Demo.argv Demo.w0
     = (Demo.w0, Ok tt).
Proof.
  split; [discriminate|].
  apply (module_guard_runs_only_as_main Demo.from_hdf Demo.PixelStatisticsCalculator Demo.TableLoader
           Demo.read_telescope_events_by_id Demo.first_pass Demo.second_pass
           "__main__" Demo.argv Demo.w0).
  discriminate.
Defined.
